(** * ic706_server: the serial/network bridge of ic706-remote

    A shallow embedding of [main] of [src/ic706_server.c]: option parsing,
    the setup sequence, one iteration of the [while (keep_running)] loop,
    and the [cleanup] section.  The C locals of [main] become the fields of
    [state]; every call into the operating system or into [common.c]
    (whose source is not part of the examined file) is resolved by an
    environment record that supplies the value the call returns, and is
    recorded in the [trace] of effects. *)

From Stdlib Require Import ZArith List Bool Lia String.
From stdpp Require Import base gmap sets.
Import ListNotations.
Local Open Scope Z_scope.

(** ** Machine integers *)

(** [uint32_t] and [uint64_t] arithmetic wraps around. *)
Definition u32 (x : Z) : Z := x mod 2 ^ 32.
Definition u64 (x : Z) : Z := x mod 2 ^ 64.

(** [#define GPIO_PWK 20] *)
Definition GPIO_PWK : Z := 20.

Definition EXIT_SUCCESS : Z := 0.
Definition EXIT_FAILURE : Z := 1.

(** ** Data of common.h *)

(** Modelled from the spec: the packet type codes [PKT_TYPE_*] of common.h,
    which is not among the sources.  The spec's tagged variant
    [{Init2, EndOfSession, PowerToggle, ConnectionClosed, DisplayUpdate,
    Keepalive, Other}] under the macro names that [main] switches on. *)
Inductive pkt_type : Type :=
  | PKT_TYPE_INIT2
  | PKT_TYPE_EOS
  | PKT_TYPE_PWK
  | PKT_TYPE_EOF
  | PKT_TYPE_LCD
  | PKT_TYPE_KEEPALIVE
  | PKT_TYPE_OTHER.

(** Modelled from the spec: [struct xfr_buf] of common.h, a write cursor
    into a fixed-capacity byte buffer plus the three counters.  [main]
    uses the fields [wridx], [write_errors] (printed as [PRIu32]),
    [valid_pkts] and [invalid_pkts] (printed as [PRIu64]) and reads
    [data[2]]. *)
Record xfr_buf : Type := mkBuf {
  data : list Z;
  wridx : Z;
  write_errors : Z;
  valid_pkts : Z;
  invalid_pkts : Z
}.

(** [buf.data[i]]: the array has a fixed capacity, so index 2 is always in
    range in C; the list model reads 0 past its end. *)
Definition data_at (b : xfr_buf) (i : nat) : Z := default 0 (data b !! i).

(** [buf.write_errors += r] on a [uint32_t] field. *)
Definition add_write_errors (r : Z) (b : xfr_buf) : xfr_buf :=
  mkBuf (data b) (wridx b) (u32 (write_errors b + r)) (valid_pkts b)
        (invalid_pkts b).

(** ** Effects *)

(** The diagnostic lines written with [fprintf(stderr, ...)] and [printf],
    apart from the final report. *)
Inductive diag : Type :=
  | MsgWarnSigint
  | MsgWarnSigterm
  | MsgHelp
  | MsgUsingPort (p : Z)
  | MsgUsingUart (dev : string)
  | MsgErrUartOpen
  | MsgErrUartConfig
  | MsgErrGpio
  | MsgErrSocket
  | MsgErrReuseAddr
  | MsgErrBind
  | MsgErrListen
  | MsgErrAccept
  | MsgPower (on : bool)
  | MsgConnClosed (fd : Z)
  | MsgNewConn (addr : Z)
  | MsgConnAccepted (fd : Z)
  | MsgReconnect (old new : Z)
  | MsgConnRefused
  | MsgShuttingDown.

Inductive effect : Type :=
  | Diag (m : diag)
  | SendKeepalive (fd : Z)
  | GpioSetValue (pin value : Z)
  | TransferData (from to : Z)
  | Close (fd : Z)
  | Usleep
  | ReportValid (uart net : Z)
  | ReportInvalid (uart net : Z)
  | ReportWriteErrors (uart net : Z)
  | Exit (code : Z).

(** ** The variables of [main] *)

Record state : Type := mkState {
  uart_fd : Z;
  sock_fd : Z;
  net_fd : Z;
  connected : Z;
  rig_is_on : Z;
  client_addr : Z;             (* the global [client_addr] *)
  pwk_on_time : Z;
  last_keepalive : Z;
  current_time : Z;
  active_fds : gset Z;         (* [fd_set active_fds] *)
  uart_buf : xfr_buf;
  net_buf : xfr_buf;
  client_socks : gset Z;       (* sockets returned by accept, not yet closed *)
  trace : list effect          (* effects performed so far, oldest first *)
}.

Definition set_uart_fd (v : Z) (s : state) : state :=
  mkState v (sock_fd s) (net_fd s) (connected s) (rig_is_on s) (client_addr s) (pwk_on_time s) (last_keepalive s) (current_time s) (active_fds s) (uart_buf s) (net_buf s) (client_socks s) (trace s).
Definition set_sock_fd (v : Z) (s : state) : state :=
  mkState (uart_fd s) v (net_fd s) (connected s) (rig_is_on s) (client_addr s) (pwk_on_time s) (last_keepalive s) (current_time s) (active_fds s) (uart_buf s) (net_buf s) (client_socks s) (trace s).
Definition set_net_fd (v : Z) (s : state) : state :=
  mkState (uart_fd s) (sock_fd s) v (connected s) (rig_is_on s) (client_addr s) (pwk_on_time s) (last_keepalive s) (current_time s) (active_fds s) (uart_buf s) (net_buf s) (client_socks s) (trace s).
Definition set_connected (v : Z) (s : state) : state :=
  mkState (uart_fd s) (sock_fd s) (net_fd s) v (rig_is_on s) (client_addr s) (pwk_on_time s) (last_keepalive s) (current_time s) (active_fds s) (uart_buf s) (net_buf s) (client_socks s) (trace s).
Definition set_rig_is_on (v : Z) (s : state) : state :=
  mkState (uart_fd s) (sock_fd s) (net_fd s) (connected s) v (client_addr s) (pwk_on_time s) (last_keepalive s) (current_time s) (active_fds s) (uart_buf s) (net_buf s) (client_socks s) (trace s).
Definition set_client_addr (v : Z) (s : state) : state :=
  mkState (uart_fd s) (sock_fd s) (net_fd s) (connected s) (rig_is_on s) v (pwk_on_time s) (last_keepalive s) (current_time s) (active_fds s) (uart_buf s) (net_buf s) (client_socks s) (trace s).
Definition set_pwk_on_time (v : Z) (s : state) : state :=
  mkState (uart_fd s) (sock_fd s) (net_fd s) (connected s) (rig_is_on s) (client_addr s) v (last_keepalive s) (current_time s) (active_fds s) (uart_buf s) (net_buf s) (client_socks s) (trace s).
Definition set_last_keepalive (v : Z) (s : state) : state :=
  mkState (uart_fd s) (sock_fd s) (net_fd s) (connected s) (rig_is_on s) (client_addr s) (pwk_on_time s) v (current_time s) (active_fds s) (uart_buf s) (net_buf s) (client_socks s) (trace s).
Definition set_current_time (v : Z) (s : state) : state :=
  mkState (uart_fd s) (sock_fd s) (net_fd s) (connected s) (rig_is_on s) (client_addr s) (pwk_on_time s) (last_keepalive s) v (active_fds s) (uart_buf s) (net_buf s) (client_socks s) (trace s).
Definition set_active_fds (v : gset Z) (s : state) : state :=
  mkState (uart_fd s) (sock_fd s) (net_fd s) (connected s) (rig_is_on s) (client_addr s) (pwk_on_time s) (last_keepalive s) (current_time s) v (uart_buf s) (net_buf s) (client_socks s) (trace s).
Definition set_uart_buf (v : xfr_buf) (s : state) : state :=
  mkState (uart_fd s) (sock_fd s) (net_fd s) (connected s) (rig_is_on s) (client_addr s) (pwk_on_time s) (last_keepalive s) (current_time s) (active_fds s) v (net_buf s) (client_socks s) (trace s).
Definition set_net_buf (v : xfr_buf) (s : state) : state :=
  mkState (uart_fd s) (sock_fd s) (net_fd s) (connected s) (rig_is_on s) (client_addr s) (pwk_on_time s) (last_keepalive s) (current_time s) (active_fds s) (uart_buf s) v (client_socks s) (trace s).
Definition set_client_socks (v : gset Z) (s : state) : state :=
  mkState (uart_fd s) (sock_fd s) (net_fd s) (connected s) (rig_is_on s) (client_addr s) (pwk_on_time s) (last_keepalive s) (current_time s) (active_fds s) (uart_buf s) (net_buf s) v (trace s).
Definition set_trace (v : list effect) (s : state) : state :=
  mkState (uart_fd s) (sock_fd s) (net_fd s) (connected s) (rig_is_on s) (client_addr s) (pwk_on_time s) (last_keepalive s) (current_time s) (active_fds s) (uart_buf s) (net_buf s) (client_socks s) v.

(** ** The environment *)

(** What the outside world answers during one pass through the loop body.
    [transfer_data] and [send_keepalive] live in common.c; only their
    results matter to [main]: the packet type returned and the buffer as
    the call leaves it, and the number of failed writes. *)
Record iter_env : Type := mkIter {
  time_ms : Z;                            (* time_ms() *)
  keepalive_timer_res : Z;                (* send_keepalive at the loop top *)
  select_res : Z;                         (* select(...) *)
  select_ready : gset Z;                  (* descriptors select found readable *)
  transfer_data : Z -> Z -> xfr_buf -> pkt_type * xfr_buf;
  keepalive_init2_res : Z;                (* send_keepalive after INIT2 *)
  accept_res : Z;                         (* accept(...): the socket or -1 *)
  accept_addr : Z                         (* cli_addr.sin_addr.s_addr *)
}.

(** ** Primitive calls *)

Definition emit (ev : effect) (s : state) : state :=
  set_trace (trace s ++ [ev]) s.

Definition gpio_set_value (pin value : Z) (s : state) : state :=
  emit (GpioSetValue pin value) s.

(** [send_keepalive(fd)]: writes the keepalive packet and returns the
    result [res] supplied by the environment (0 when the write went
    through). *)
Definition send_keepalive (res : Z) (fd : Z) (s : state) : Z * state :=
  (res, emit (SendKeepalive fd) s).

(** [close(fd)]: the descriptor stops being an open client socket. *)
Definition close (fd : Z) (s : state) : state :=
  set_client_socks (client_socks s ∖ {[fd]}) (emit (Close fd) s).

(** [accept(...)] returning the socket [new]. *)
Definition accepted (new : Z) (s : state) : state :=
  set_client_socks (client_socks s ∪ {[new]}) s.

Definition FD_SET (fd : Z) (s : state) : state :=
  set_active_fds (active_fds s ∪ {[fd]}) s.
Definition FD_CLR (fd : Z) (s : state) : state :=
  set_active_fds (active_fds s ∖ {[fd]}) s.
Definition FD_ISSET (fd : Z) (fds : gset Z) : bool := bool_decide (fd ∈ fds).

(** ** The loop body, lines 221-333 *)

(** Lines 223-227: the periodic keepalive.  The value returned by
    [send_keepalive] is dropped. *)
Definition keepalive_timer (e : iter_env) (s : state) : state :=
  if negb (rig_is_on s =? 0)
     && (150 <? u64 (current_time s - last_keepalive s))
  then
    let '(_, s1) := send_keepalive (keepalive_timer_res e) (uart_fd s) s in
    set_last_keepalive (current_time s1) s1
  else s.

(** Lines 230-234: release of the PWK line. *)
Definition pwk_timer (s : state) : state :=
  if negb (pwk_on_time s =? 0)
     && (500 <? u64 (current_time s - pwk_on_time s))
  then set_pwk_on_time 0 (gpio_set_value GPIO_PWK 0 s)
  else s.

(** Lines 246-260: service the UART port. *)
Definition service_uart (e : iter_env) (read_fds : gset Z) (s : state) : state :=
  if FD_ISSET (uart_fd s) read_fds then
    let '(pkt, buf) := transfer_data e (uart_fd s) (net_fd s) (uart_buf s) in
    let s1 := set_uart_buf buf (emit (TransferData (uart_fd s) (net_fd s)) s) in
    match pkt with
    | PKT_TYPE_INIT2 =>
        let s2 := set_rig_is_on 1 s1 in
        let '(r, s3) := send_keepalive (keepalive_init2_res e) (uart_fd s2) s2 in
        let s4 := set_uart_buf (add_write_errors r (uart_buf s3)) s3 in
        set_last_keepalive (current_time s4) s4
    | PKT_TYPE_EOS => set_rig_is_on 0 s1
    | _ => s1
    end
  else s.

(** Lines 267-277: a power on/off message from the client. *)
Definition on_pwk (s : state) : state :=
  let s1 := emit (Diag (MsgPower (negb (data_at (net_buf s) 2 =? 0)))) s in
  if negb (data_at (net_buf s1) 2 =? rig_is_on s1)
  then set_pwk_on_time (current_time s1) (gpio_set_value GPIO_PWK 1 s1)
  else s1.

(** Lines 279-286: the client closed the connection. *)
Definition on_eof (s : state) : state :=
  let s1 := emit (Diag (MsgConnClosed (net_fd s))) s in
  let s2 := FD_CLR (net_fd s1) s1 in
  let s3 := close (net_fd s2) s2 in
  set_client_addr 0 (set_connected 0 (set_net_fd (-1) s3)).

(** Lines 263-288: service the network socket. *)
Definition service_net (e : iter_env) (read_fds : gset Z) (s : state) : state :=
  if negb (connected s =? 0) && FD_ISSET (net_fd s) read_fds then
    let '(pkt, buf) := transfer_data e (net_fd s) (uart_fd s) (net_buf s) in
    let s1 := set_net_buf buf (emit (TransferData (net_fd s) (uart_fd s)) s) in
    match pkt with
    | PKT_TYPE_PWK => on_pwk s1
    | PKT_TYPE_EOF => on_eof s1
    | _ => s1
    end
  else s.

(** Lines 303-331: a connection [new] from [addr] has been accepted. *)
Definition on_accept (new addr : Z) (s : state) : state :=
  let s1 := emit (Diag (MsgNewConn addr)) s in
  if connected s1 =? 0 then
    let s2 := emit (Diag (MsgConnAccepted new)) s1 in
    set_connected 1 (FD_SET new (set_client_addr addr (set_net_fd new s2)))
  else if client_addr s1 =? addr then
    let s2 := emit (Diag (MsgReconnect (net_fd s1) new)) s1 in
    let s3 := FD_CLR (net_fd s2) s2 in
    let s4 := close (net_fd s3) s3 in
    let s5 := set_net_fd new s4 in
    FD_SET (net_fd s5) s5
  else
    close new (emit (Diag MsgConnRefused) s1).

(** How a pass through the loop body ends: at the loop test again, or at
    the [cleanup] label. *)
Inductive flow : Type :=
  | Next (s : state)
  | Cleanup (s : state).

Definition state_of (f : flow) : state :=
  match f with Next s => s | Cleanup s => s end.

(** Lines 291-331: pending connections. *)
Definition service_sock (e : iter_env) (read_fds : gset Z) (s : state) : flow :=
  if FD_ISSET (sock_fd s) read_fds then
    if accept_res e =? -1 then Cleanup (emit (Diag MsgErrAccept) s)
    else Next (on_accept (accept_res e) (accept_addr e)
                 (accepted (accept_res e) s))
  else Next s.

(** Lines 221-234: the two timers, run on a fresh time sample. *)
Definition timers (e : iter_env) (s : state) : state :=
  pwk_timer (keepalive_timer e (set_current_time (u64 (time_ms e)) s)).

Definition loop_body (e : iter_env) (s : state) : flow :=
  let s1 := timers e s in
  if select_res e <=? 0 then Next s1          (* continue *)
  else
    let read_fds := active_fds s1 ∩ select_ready e in
    let s2 := service_uart e read_fds s1 in
    let s3 := service_net e read_fds s2 in
    match service_sock e read_fds s3 with
    | Next s4 => Next (emit Usleep s4)
    | Cleanup s4 => Cleanup s4
    end.

(** ** Option parsing, lines 65-93 *)

(** The options [getopt] hands out, one per call, until it returns -1;
    [atoi] and [strdup] are already applied to the arguments. *)
Inductive cli_opt : Type :=
  | OptP (arg : Z)
  | OptU (arg : string)
  | OptH
  | OptUnknown.

(** The globals [port] and [uart]. *)
Record options : Type := mkOptions {
  port : Z;
  uart : option string
}.

Definition default_options : options := mkOptions 42000 None.

Inductive parse_result : Type :=
  | Parsed (o : options)
  | Exited (code : Z) (tr : list effect).    (* help(); exit(code) *)

Fixpoint parse_options (argv : list cli_opt) (o : options) : parse_result :=
  match argv with
  | [] => Parsed o
  | OptP arg :: rest => parse_options rest (mkOptions arg (uart o))
  | OptU arg :: rest => parse_options rest (mkOptions (port o) (Some arg))
  | OptH :: _ => Exited EXIT_SUCCESS [Diag MsgHelp]
  | OptUnknown :: _ => Exited EXIT_FAILURE [Diag MsgHelp]
  end.

(** ** Setup, lines 98-217 *)

(** What the outside world answers during setup.  The two [data] arrays
    are locals that [main] never initialises, so their first contents are
    arbitrary. *)
Record setup_env : Type := mkSetup {
  signal_sigint_ok : bool;
  signal_sigterm_ok : bool;
  argv : list cli_opt;
  open_res : Z;                 (* open(uart, ...) *)
  set_serial_config_res : Z;
  gpio_init_out_res : Z;
  socket_res : Z;
  setsockopt_res : Z;
  bind_res : Z;
  listen_res : Z;
  uart_data0 : list Z;
  net_data0 : list Z
}.

(** The locals as the declarations and lines 118-125 leave them.  The
    variables assigned only at lines 201-217 are shown with the values
    they get there; nothing reads them earlier. *)
Definition initial_state (se : setup_env) : state :=
  mkState (-1) (-1) (-1) 0 0 0 0 0 0 ∅
          (mkBuf (uart_data0 se) 0 0 0 0) (mkBuf (net_data0 se) 0 0 0 0)
          ∅ [].

Inductive setup_result : Type :=
  | SetupExit (code : Z) (tr : list effect)   (* exit() called on the spot *)
  | SetupCleanup (s : state)                  (* goto cleanup *)
  | SetupDone (s : state).                    (* the loop is entered *)

Definition warn_unless (ok : bool) (m : diag) (s : state) : state :=
  if ok then s else emit (Diag m) s.

(** Lines 198-217. *)
Definition enter_loop (s : state) : state :=
  let s1 := set_active_fds ∅ s in
  let s2 := FD_SET (sock_fd s1) (FD_SET (uart_fd s1) s1) in
  set_pwk_on_time 0
    (set_last_keepalive 0 (set_connected 0 (set_rig_is_on 0 s2))).

Definition setup (se : setup_env) : setup_result :=
  let s0 := initial_state se in
  let s1 := warn_unless (signal_sigint_ok se) MsgWarnSigint s0 in
  let s2 := warn_unless (signal_sigterm_ok se) MsgWarnSigterm s1 in
  match parse_options (argv se) default_options with
  | Exited code tr => SetupExit code (trace s2 ++ tr)
  | Parsed o =>
      let dev := default "/dev/ttyO1"%string (uart o) in
      let s3 := emit (Diag (MsgUsingUart dev))
                  (emit (Diag (MsgUsingPort (port o))) s2) in
      let s4 := set_uart_fd (open_res se) s3 in
      if uart_fd s4 =? -1 then
        SetupExit EXIT_FAILURE (trace (emit (Diag MsgErrUartOpen) s4))
      else if set_serial_config_res se =? -1 then
        SetupCleanup (emit (Diag MsgErrUartConfig) s4)
      else if gpio_init_out_res se =? -1 then
        SetupCleanup (emit (Diag MsgErrGpio) s4)
      else
        let s5 := set_sock_fd (socket_res se) s4 in
        if sock_fd s5 =? -1 then
          SetupCleanup (emit (Diag MsgErrSocket) s5)
        else
          let s6 := warn_unless (negb (setsockopt_res se =? -1))
                      MsgErrReuseAddr s5 in
          if bind_res se =? -1 then
            SetupCleanup (emit (Diag MsgErrBind) s6)
          else if listen_res se =? -1 then
            SetupCleanup (emit (Diag MsgErrListen) s6)
          else SetupDone (enter_loop s6)
  end.

(** ** The loop and the cleanup section *)

(** [while (keep_running)]: the signal handler clears [keep_running]
    asynchronously, so a run is described by the passes that started
    before the flag was seen cleared, one [iter_env] each.  The loop ends
    with [exit_code = EXIT_SUCCESS] when the list is used up, and with
    [exit_code] still [EXIT_FAILURE] when a pass jumps to [cleanup]. *)
Fixpoint event_loop (iters : list iter_env) (s : state) : Z * state :=
  match iters with
  | [] => (EXIT_SUCCESS, emit (Diag MsgShuttingDown) s)
  | e :: rest =>
      match loop_body e s with
      | Next s' => event_loop rest s'
      | Cleanup s' => (EXIT_FAILURE, s')
      end
  end.

(** Lines 339-353: what the process did and the status it exits with. *)
Definition cleanup (exit_code : Z) (s : state) : Z * list effect :=
  let s1 := close (uart_fd s) s in
  let s2 := close (net_fd s1) s1 in
  let s3 := close (sock_fd s2) s2 in
  let s4 := emit (ReportValid (valid_pkts (uart_buf s3))
                              (valid_pkts (net_buf s3))) s3 in
  let s5 := emit (ReportInvalid (invalid_pkts (uart_buf s4))
                                (invalid_pkts (net_buf s4))) s4 in
  let s6 := emit (ReportWriteErrors (write_errors (uart_buf s5))
                                    (write_errors (net_buf s5))) s5 in
  (exit_code, trace s6 ++ [Exit exit_code]).

Definition main (se : setup_env) (iters : list iter_env) : Z * list effect :=
  match setup se with
  | SetupExit code tr => (code, tr ++ [Exit code])
  | SetupCleanup s => cleanup EXIT_FAILURE s
  | SetupDone s =>
      let '(code, s') := event_loop iters s in
      cleanup code s'
  end.

(** ** States the loop can be in *)

Inductive reachable : state -> Prop :=
  | reachable_entry (se : setup_env) (s : state) :
      setup se = SetupDone s -> reachable s
  | reachable_pass (e : iter_env) (s s' : state) :
      reachable s -> loop_body e s = Next s' -> reachable s'.

(** ** Sample environments, used to run the model *)

(** A pass in which [select] reports nothing. *)
Definition idle (t : Z) : iter_env :=
  mkIter t 0 0 ∅ (fun _ _ b => (PKT_TYPE_OTHER, b)) 0 (-1) 0.

(** A setup in which every call succeeds: serial port 3, listening
    socket 4. *)
Definition good_setup : setup_env :=
  mkSetup true true [] 3 0 0 4 0 0 0 [] [].

(** The state in which [good_setup] enters the loop. *)
Definition s_entry : state :=
  Eval vm_compute in
    match setup good_setup with SetupDone s => s | _ => initial_state good_setup end.

(** A pass in which only the listening socket is readable and [accept]
    returns the socket [fd] of a peer at [addr]. *)
Definition conn_env (t fd addr : Z) : iter_env :=
  mkIter t 0 1 {[4]} (fun _ _ b => (PKT_TYPE_OTHER, b)) 0 fd addr.

(** A pass in which only client socket 7 is readable and [transfer_data]
    finds a power message with payload byte [b]. *)
Definition pwk_env (t b : Z) : iter_env :=
  mkIter t 0 1 {[7]}
    (fun _ _ buf =>
       (PKT_TYPE_PWK,
        mkBuf [254; 160; b; 253] 0 (write_errors buf) (valid_pkts buf + 1)
              (invalid_pkts buf)))
    0 (-1) 0.

(** A pass in which only the serial port is readable and [transfer_data]
    reports a packet of type [p]; the keepalive sent after an INIT2
    returns [r]. *)
Definition uart_env (t : Z) (p : pkt_type) (r : Z) : iter_env :=
  mkIter t 0 1 {[3]} (fun _ _ b => (p, b)) r (-1) 0.

(** A pass like [idle] whose periodic keepalive returns [r]. *)
Definition idle_keepalive (t r : Z) : iter_env :=
  mkIter t r 0 ∅ (fun _ _ b => (PKT_TYPE_OTHER, b)) 0 (-1) 0.

(** The loop run over [iters] without looking at how each pass ends. *)
Definition run (iters : list iter_env) (s : state) : state :=
  fold_left (fun s e => state_of (loop_body e s)) iters s.

(** [s_entry] after a client at address 99 connected on socket 7. *)
Definition s_client : state :=
  Eval vm_compute in run [conn_env 1000 7 99] s_entry.

(** [s_client] after the serial side reported INIT2. *)
Definition s_rig_on : state :=
  Eval vm_compute in run [uart_env 1010 PKT_TYPE_INIT2 0] s_client.

(** [s_client] after a power-on request at time 1100. *)
Definition s_pulse : state :=
  Eval vm_compute in run [pwk_env 1100 1] s_client.

(** ** Notions used in the statements *)

(** The packet type [transfer_data] reports for the serial port in the
    pass [e] started in [s], when the port is serviced at all. *)
Definition uart_seen (e : iter_env) (s : state) : option pkt_type :=
  if (0 <? select_res e)
     && FD_ISSET (uart_fd s) (active_fds s ∩ select_ready e)
  then Some (fst (transfer_data e (uart_fd s) (net_fd s) (uart_buf s)))
  else None.

Definition init2_seen (e : iter_env) (s : state) : bool :=
  match uart_seen e s with Some PKT_TYPE_INIT2 => true | _ => false end.

(** The periodic keepalive is due in the pass [e] started in [s]. *)
Definition keepalive_due (e : iter_env) (s : state) : bool :=
  negb (rig_is_on s =? 0)
  && (150 <? u64 (u64 (time_ms e) - last_keepalive s)).

(** The PWK line is due for release in the pass [e] started in [s]. *)
Definition pwk_due (e : iter_env) (s : state) : bool :=
  negb (pwk_on_time s =? 0)
  && (500 <? u64 (u64 (time_ms e) - pwk_on_time s)).

(** Number of keepalive packets written in a trace. *)
Fixpoint keepalives (tr : list effect) : nat :=
  match tr with
  | [] => 0%nat
  | SendKeepalive _ :: rest => S (keepalives rest)
  | _ :: rest => keepalives rest
  end.

(** The level last written to the PWK line in a trace (0 before any write). *)
Definition pwk_level (tr : list effect) : Z :=
  fold_left (fun v ev =>
               match ev with
               | GpioSetValue pin value => if pin =? GPIO_PWK then value else v
               | _ => v
               end) tr 0.

Definition is_report (ev : effect) : bool :=
  match ev with
  | ReportValid _ _ | ReportInvalid _ _ | ReportWriteErrors _ _ => true
  | _ => false
  end.

(** [accept] is called in the pass [e] started in [s] and fails. *)
Definition accept_fails (e : iter_env) (s : state) : bool :=
  (0 <? select_res e)
  && FD_ISSET (sock_fd s) (active_fds s ∩ select_ready e)
  && (accept_res e =? -1).

(** Some pass of [iters], run from [s], has a failing [accept]. *)
Fixpoint accept_fails_during (iters : list iter_env) (s : state) : bool :=
  match iters with
  | [] => false
  | e :: rest =>
      accept_fails e s || accept_fails_during rest (state_of (loop_body e s))
  end.

(** How option parsing ends, read off the option list: the first [-h] or
    unknown option decides. *)
Fixpoint first_exit_option (argv : list cli_opt) : option Z :=
  match argv with
  | [] => None
  | OptH :: _ => Some EXIT_SUCCESS
  | OptUnknown :: _ => Some EXIT_FAILURE
  | _ :: rest => first_exit_option rest
  end.

(** One of the fatal setup calls fails. *)
Definition setup_call_fails (se : setup_env) : bool :=
  (open_res se =? -1) || (set_serial_config_res se =? -1)
  || (gpio_init_out_res se =? -1) || (socket_res se =? -1)
  || (bind_res se =? -1) || (listen_res se =? -1).

(** Setup ends in a failure: an unknown option, or a failing call. *)
Definition setup_fails (se : setup_env) : bool :=
  match first_exit_option (argv se) with
  | Some code => code =? EXIT_FAILURE
  | None => setup_call_fails se
  end.

(** Setup leaves through [exit] without passing the [cleanup] label. *)
Definition direct_exit (se : setup_env) : bool :=
  match first_exit_option (argv se) with
  | Some _ => true
  | None => open_res se =? -1
  end.

(** The variables as [cleanup] finds them. *)
Definition final_state (se : setup_env) (iters : list iter_env) : state :=
  match setup se with
  | SetupExit _ _ => initial_state se
  | SetupCleanup s => s
  | SetupDone s => snd (event_loop iters s)
  end.

(** The pass [e] with another result for the periodic keepalive. *)
Definition with_keepalive_timer_res (r : Z) (e : iter_env) : iter_env :=
  mkIter (time_ms e) r (select_res e) (select_ready e) (transfer_data e)
         (keepalive_init2_res e) (accept_res e) (accept_addr e).

Definition b2n (b : bool) : nat := if b then 1%nat else 0%nat.

(** The client slot: the socket in [net_fd] when [connected] is set. *)
Definition slot (s : state) : gset Z :=
  if connected s =? 0 then ∅ else {[net_fd s]}.

(** Every open client socket is the one in the slot. *)
Definition client_inv (s : state) : Prop := client_socks s ⊆ slot s.

(** A pass in which the listening socket is readable and [accept] fails. *)
Definition accept_error_env (t : Z) : iter_env := conn_env t (-1) 0.

(** A setup in which the serial device cannot be opened. *)
Definition uart_open_fails : setup_env :=
  mkSetup true true [] (-1) 0 0 4 0 0 0 [] [].

(** A setup in which binding the listening socket fails. *)
Definition bind_fails : setup_env :=
  mkSetup true true [] 3 0 0 4 0 (-1) 0 [] [].

(** The effects of the [cleanup] section run in [s] with status [code]. *)
Definition cleanup_effects (code : Z) (s : state) : list effect :=
  [Close (uart_fd s); Close (net_fd s); Close (sock_fd s);
   ReportValid (valid_pkts (uart_buf s)) (valid_pkts (net_buf s));
   ReportInvalid (invalid_pkts (uart_buf s)) (invalid_pkts (net_buf s));
   ReportWriteErrors (write_errors (uart_buf s)) (write_errors (net_buf s));
   Exit code].

(** The time samples of [iters] never go back, advance by at most [gap]
    from one pass to the next, starting from [prev], and fit [uint64_t]. *)
Fixpoint paced (gap prev : Z) (iters : list iter_env) : bool :=
  match iters with
  | [] => true
  | e :: rest =>
      (prev <=? time_ms e) && (time_ms e <=? prev + gap)
      && (time_ms e <? 2 ^ 64) && paced gap (time_ms e) rest
  end.

(** Passes 50 ms apart around a second power-on request at time 1400. *)
Definition retrigger_passes : list iter_env :=
  map idle [1150; 1200; 1250; 1300; 1350]
  ++ [pwk_env 1400 1]
  ++ map idle [1450; 1500; 1550; 1600; 1650; 1700].

(** Idle passes 50 ms apart after the request of time 1100. *)
Definition quiet_passes : list iter_env :=
  map idle [1150; 1200; 1250; 1300; 1350; 1400; 1450; 1500; 1550; 1600;
            1650; 1700].

(** What [transfer_data] reports for the client socket in the pass [e]
    started in [s], when the socket is serviced at all: the packet type
    and the buffer as the call leaves it. *)
Definition net_seen (e : iter_env) (s : state) : option (pkt_type * xfr_buf) :=
  if (0 <? select_res e) && negb (connected s =? 0)
     && FD_ISSET (net_fd s) (active_fds s ∩ select_ready e)
  then Some (transfer_data e (net_fd s) (uart_fd s) (net_buf s))
  else None.

(** The listening socket is serviced in the pass [e] started in [s]. *)
Definition sock_ready (e : iter_env) (s : state) : bool :=
  (0 <? select_res e)
  && FD_ISSET (sock_fd s) (active_fds s ∩ select_ready e).

(** The descriptors [select] watches are the serial port, the listening
    socket and the socket in the slot, and the slot's socket is among
    them. *)
Definition watch_inv (s : state) : Prop :=
  slot s ⊆ active_fds s
  /\ active_fds s ⊆ {[uart_fd s; sock_fd s]} ∪ slot s.

(** The flags are 0 or 1 and an empty slot holds the values it is reset
    to. *)
Definition flag_inv (s : state) : Prop :=
  (connected s = 0 \/ connected s = 1)
  /\ (rig_is_on s = 0 \/ rig_is_on s = 1)
  /\ (connected s = 0 -> net_fd s = -1 /\ client_addr s = 0).

(** The time stamps fit [uint64_t], and while a pulse is recorded the PWK
    line was last written 1. *)
Definition pulse_inv (s : state) : Prop :=
  0 <= current_time s < 2 ^ 64
  /\ 0 <= pwk_on_time s < 2 ^ 64
  /\ 0 <= last_keepalive s < 2 ^ 64
  /\ (pwk_on_time s <> 0 -> pwk_level (trace s) = 1).

(** A pass in which client socket 7 reports the end of the stream. *)
Definition eof_env (t : Z) : iter_env :=
  mkIter t 0 1 {[7]} (fun _ _ b => (PKT_TYPE_EOF, b)) 0 (-1) 0.

(** A pass in which client socket 7 reports the end of the stream and a
    connection from [addr] is accepted on socket [fd]. *)
Definition eof_conn_env (t fd addr : Z) : iter_env :=
  mkIter t 0 2 {[4; 7]} (fun _ _ b => (PKT_TYPE_EOF, b)) 0 fd addr.

(** The setup [se] with another result for [setsockopt] and for the two
    [signal] calls. *)
Definition with_warnings (i t : bool) (r : Z) (se : setup_env) : setup_env :=
  mkSetup i t (argv se) (open_res se) (set_serial_config_res se)
          (gpio_init_out_res se) (socket_res se) r (bind_res se)
          (listen_res se) (uart_data0 se) (net_data0 se).

(** The variables of a state, without the record of effects. *)
Definition vars (s : state) : state := set_trace [] s.

(** Neither timer is overdue: with the rig on the keepalive timer is at
    most 150 ms behind the last time sample, and a recorded pulse is at
    most 500 ms behind it. *)
Definition timers_inv (s : state) : Prop :=
  (rig_is_on s <> 0 -> u64 (current_time s - last_keepalive s) <= 150)
  /\ (pwk_on_time s <> 0 -> u64 (current_time s - pwk_on_time s) <= 500).

(** No INIT2 packet arrives in the pass [e]. *)
Definition no_init2 (e : iter_env) : Prop :=
  forall from to buf, fst (transfer_data e from to buf) <> PKT_TYPE_INIT2.

(** Number of keepalive packets written to the descriptor [fd] in a
    trace. *)
Fixpoint keepalives_to (fd : Z) (tr : list effect) : nat :=
  match tr with
  | [] => 0%nat
  | SendKeepalive fd' :: rest =>
      Nat.add (b2n (fd' =? fd)) (keepalives_to fd rest)
  | _ :: rest => keepalives_to fd rest
  end.

(** The UART service of the pass [e] started in [s] sees an EOS packet. *)
Definition eos_seen (e : iter_env) (s : state) : bool :=
  match uart_seen e s with Some PKT_TYPE_EOS => true | _ => false end.

(** Some pass of [iters], run from [s], sees an EOS packet. *)
Fixpoint eos_seen_during (iters : list iter_env) (s : state) : bool :=
  match iters with
  | [] => false
  | e :: rest =>
      eos_seen e s || eos_seen_during rest (state_of (loop_body e s))
  end.

(** The network service of the pass [e] started in [s] sees a power
    message whose payload byte differs from [rig_is_on] as the pass has
    it by then, so that the line is asserted and the time recorded. *)
Definition pwk_requested (e : iter_env) (s : state) : bool :=
  match net_seen e s with
  | Some (PKT_TYPE_PWK, buf) =>
      negb (data_at buf 2 =? rig_is_on (state_of (loop_body e s)))
  | _ => false
  end.

(** Some pass of [iters], run from [s], records a pulse. *)
Fixpoint pwk_requested_during (iters : list iter_env) (s : state) : bool :=
  match iters with
  | [] => false
  | e :: rest =>
      pwk_requested e s
      || pwk_requested_during rest (state_of (loop_body e s))
  end.

(** Passes 50 ms apart after the request of time 1100, one of them with a
    power-off request, which agrees with the rig being off. *)
Definition agreeing_passes : list iter_env :=
  map idle [1150; 1200; 1250; 1300; 1350]
  ++ [pwk_env 1400 0]
  ++ map idle [1450; 1500; 1550; 1600; 1650; 1700].

(** Idle passes 50 ms apart after the INIT2 of time 1010. *)
Definition rig_on_passes : list iter_env :=
  map idle [1060; 1110; 1160; 1210; 1260].

(** The arguments of the [-p] options and of the [-u] options, in the
    order given. *)
Definition port_args (argv : list cli_opt) : list Z :=
  omap (fun x => match x with OptP p => Some p | _ => None end) argv.
Definition uart_args (argv : list cli_opt) : list string :=
  omap (fun x => match x with OptU u => Some u | _ => None end) argv.

(** Setup gets as far as the [setsockopt] call once the serial port is
    open. *)
Definition reaches_setsockopt (se : setup_env) : bool :=
  negb ((set_serial_config_res se =? -1) || (gpio_init_out_res se =? -1)
        || (socket_res se =? -1)).

(** The setup [se] with a failing [setsockopt]. *)
Definition setsockopt_fails (se : setup_env) : setup_env :=
  with_warnings (signal_sigint_ok se) (signal_sigterm_ok se) (-1) se.

(** * Properties *)

Ltac unfold_handlers :=
  unfold loop_body, timers, service_sock, on_accept, service_net, on_eof,
    on_pwk, service_uart, pwk_timer, keepalive_timer, send_keepalive, close,
    accepted, FD_SET, FD_CLR, gpio_set_value, emit in *.

Ltac split_cases :=
  repeat match goal with
    | |- context [if ?b then _ else _] => destruct b eqn:?; simpl
    | |- context [match ?x with _ => _ end] => destruct x eqn:?; simpl
    end.

(** ** What the timers leave alone *)

Lemma timers_frame e s :
  uart_fd (timers e s) = uart_fd s /\ sock_fd (timers e s) = sock_fd s /\
  net_fd (timers e s) = net_fd s /\ connected (timers e s) = connected s /\
  rig_is_on (timers e s) = rig_is_on s /\
  client_addr (timers e s) = client_addr s /\
  active_fds (timers e s) = active_fds s /\
  uart_buf (timers e s) = uart_buf s /\ net_buf (timers e s) = net_buf s /\
  client_socks (timers e s) = client_socks s /\
  current_time (timers e s) = u64 (time_ms e).
Proof. unfold_handlers. split_cases; repeat split; reflexivity. Qed.

Lemma timers_last_keepalive e s :
  last_keepalive (timers e s) =
    if keepalive_due e s then u64 (time_ms e) else last_keepalive s.
Proof.
  unfold keepalive_due, timers, pwk_timer, keepalive_timer, send_keepalive,
    gpio_set_value, emit. simpl.
  destruct (negb (rig_is_on s =? 0) && _); simpl;
    destruct (negb _ && _); reflexivity.
Qed.

Lemma timers_pwk_on_time e s :
  pwk_on_time (timers e s) = if pwk_due e s then 0 else pwk_on_time s.
Proof.
  unfold pwk_due, timers, pwk_timer, keepalive_timer, send_keepalive,
    gpio_set_value, emit. simpl.
  destruct (negb (rig_is_on s =? 0) && _); simpl;
    destruct (negb _ && _); reflexivity.
Qed.

Lemma timers_trace e s :
  trace (timers e s) =
    trace s ++ (if keepalive_due e s then [SendKeepalive (uart_fd s)] else [])
            ++ (if pwk_due e s then [GpioSetValue GPIO_PWK 0] else []).
Proof.
  unfold keepalive_due, pwk_due, timers, pwk_timer, keepalive_timer,
    send_keepalive, gpio_set_value, emit. simpl.
  destruct (negb (rig_is_on s =? 0) && _); simpl;
    destruct (negb _ && _); simpl;
    rewrite <- ?app_assoc, ?app_nil_r; reflexivity.
Qed.

(** ** The shape of a pass *)

Lemma loop_body_no_select e s :
  select_res e <= 0 -> loop_body e s = Next (timers e s).
Proof.
  intros H. unfold loop_body.
  assert ((select_res e <=? 0) = true) as -> by lia. reflexivity.
Qed.

Lemma loop_body_after_select e s :
  0 < select_res e ->
  loop_body e s =
    let fds := active_fds s ∩ select_ready e in
    match service_sock e fds
            (service_net e fds (service_uart e fds (timers e s))) with
    | Next s4 => Next (emit Usleep s4)
    | Cleanup s4 => Cleanup s4
    end.
Proof.
  intros H. unfold loop_body.
  assert ((select_res e <=? 0) = false) as -> by lia.
  destruct (timers_frame e s) as (_ & _ & _ & _ & _ & _ & -> & _).
  reflexivity.
Qed.

(** ** The rig state *)

Lemma rig_is_on_service_net e fds s :
  rig_is_on (service_net e fds s) = rig_is_on s.
Proof. unfold_handlers. split_cases; reflexivity. Qed.

Lemma rig_is_on_service_sock e fds s :
  rig_is_on (state_of (service_sock e fds s)) = rig_is_on s.
Proof. unfold_handlers. split_cases; reflexivity. Qed.

Lemma rig_is_on_service_uart e fds s :
  rig_is_on (service_uart e fds s) =
    if FD_ISSET (uart_fd s) fds then
      match fst (transfer_data e (uart_fd s) (net_fd s) (uart_buf s)) with
      | PKT_TYPE_INIT2 => 1
      | PKT_TYPE_EOS => 0
      | _ => rig_is_on s
      end
    else rig_is_on s.
Proof.
  unfold_handlers. destruct (FD_ISSET _ _); [|reflexivity].
  destruct (transfer_data _ _ _ _) as [[] buf]; reflexivity.
Qed.

(** What a pass does after [select] found something, as a state. *)
Lemma state_after_select e s :
  0 < select_res e ->
  exists s4,
    state_of (service_sock e (active_fds s ∩ select_ready e)
                (service_net e (active_fds s ∩ select_ready e)
                   (service_uart e (active_fds s ∩ select_ready e)
                      (timers e s)))) = s4 /\
    (state_of (loop_body e s) = s4 \/ state_of (loop_body e s) = emit Usleep s4).
Proof.
  intros H. rewrite loop_body_after_select by assumption. simpl.
  eexists; split; [reflexivity|].
  destruct (service_sock _ _ _); simpl; auto.
Qed.

(** C6: [rig_is_on] becomes 1 exactly in a pass whose UART service sees an
    INIT2 packet, becomes 0 exactly in a pass whose UART service sees an
    EOS packet, and keeps its value in every other pass; servicing the
    network socket and the listening socket never changes it. *)
Theorem rig_is_on_transitions (e : iter_env) (s : state) :
  rig_is_on (state_of (loop_body e s)) =
    match uart_seen e s with
    | Some PKT_TYPE_INIT2 => 1
    | Some PKT_TYPE_EOS => 0
    | _ => rig_is_on s
    end
  /\ (forall fds, rig_is_on (service_net e fds s) = rig_is_on s)
  /\ (forall fds, rig_is_on (state_of (service_sock e fds s)) = rig_is_on s).
Proof.
  split; [|split; intros; [apply rig_is_on_service_net|apply rig_is_on_service_sock]].
  unfold uart_seen.
  destruct (timers_frame e s) as (Hu & _ & Hn & _ & Hr & _ & Ha & Hb & _).
  destruct (Z.ltb_spec 0 (select_res e)) as [Hsel | Hsel]; simpl.
  - destruct (state_after_select e s Hsel) as (s4 & Hs4 & Hend).
    assert (rig_is_on (state_of (loop_body e s)) = rig_is_on s4) as ->
      by (destruct Hend as [-> | ->]; reflexivity).
    subst s4. rewrite rig_is_on_service_sock, rig_is_on_service_net,
      rig_is_on_service_uart, Hu, Hn, Hb, Hr.
    destruct (FD_ISSET _ _); [|reflexivity].
    destruct (fst _); reflexivity.
  - rewrite loop_body_no_select by assumption. exact Hr.
Qed.

(** ** Keepalives *)

Lemma keepalives_app tr1 tr2 :
  keepalives (tr1 ++ tr2) = (keepalives tr1 + keepalives tr2)%nat.
Proof.
  induction tr1 as [|ev tr1 IH]; simpl; [reflexivity|].
  destruct ev; simpl; rewrite IH; reflexivity.
Qed.

Lemma keepalives_timers e s :
  keepalives (trace (timers e s)) =
    (keepalives (trace s) + b2n (keepalive_due e s))%nat.
Proof.
  rewrite timers_trace, !keepalives_app.
  destruct (keepalive_due e s), (pwk_due e s); simpl; lia.
Qed.

Lemma keepalives_service_uart e fds s :
  keepalives (trace (service_uart e fds s)) =
    (keepalives (trace s)
     + b2n (FD_ISSET (uart_fd s) fds
            && match fst (transfer_data e (uart_fd s) (net_fd s) (uart_buf s)) with
               | PKT_TYPE_INIT2 => true
               | _ => false
               end))%nat.
Proof.
  unfold_handlers. destruct (FD_ISSET _ _); simpl; [|lia].
  destruct (transfer_data _ _ _ _) as [[] buf]; simpl;
    rewrite ?keepalives_app; simpl; lia.
Qed.

Lemma keepalives_service_net e fds s :
  keepalives (trace (service_net e fds s)) = keepalives (trace s).
Proof.
  unfold_handlers. split_cases; rewrite ?keepalives_app; simpl; lia.
Qed.

Lemma keepalives_service_sock e fds s :
  keepalives (trace (state_of (service_sock e fds s))) = keepalives (trace s).
Proof.
  unfold_handlers. split_cases; rewrite ?keepalives_app; simpl; lia.
Qed.

Lemma last_keepalive_service_net e fds s :
  last_keepalive (service_net e fds s) = last_keepalive s.
Proof. unfold_handlers. split_cases; reflexivity. Qed.

Lemma last_keepalive_service_sock e fds s :
  last_keepalive (state_of (service_sock e fds s)) = last_keepalive s.
Proof. unfold_handlers. split_cases; reflexivity. Qed.

Lemma last_keepalive_service_uart e fds s :
  last_keepalive (service_uart e fds s) =
    if FD_ISSET (uart_fd s) fds
       && match fst (transfer_data e (uart_fd s) (net_fd s) (uart_buf s)) with
          | PKT_TYPE_INIT2 => true
          | _ => false
          end
    then current_time s else last_keepalive s.
Proof.
  unfold_handlers. destruct (FD_ISSET _ _); simpl; [|reflexivity].
  destruct (transfer_data _ _ _ _) as [[] buf]; reflexivity.
Qed.

Lemma init2_seen_unfold e s :
  0 < select_res e ->
  init2_seen e s =
    FD_ISSET (uart_fd s) (active_fds s ∩ select_ready e)
    && match fst (transfer_data e (uart_fd s) (net_fd s) (uart_buf s)) with
       | PKT_TYPE_INIT2 => true
       | _ => false
       end.
Proof.
  intros H. unfold init2_seen, uart_seen.
  assert ((0 <? select_res e) = true) as -> by lia. simpl.
  destruct (FD_ISSET _ _); [|reflexivity]. simpl.
  destruct (fst _); reflexivity.
Qed.

Lemma init2_seen_no_select e s : select_res e <= 0 -> init2_seen e s = false.
Proof.
  intros H. unfold init2_seen, uart_seen.
  assert ((0 <? select_res e) = false) as -> by lia. reflexivity.
Qed.

(** The keepalives written and the keepalive timer after one pass. *)
Lemma keepalive_pass e s :
  keepalives (trace (state_of (loop_body e s))) =
    (keepalives (trace s) + b2n (keepalive_due e s) + b2n (init2_seen e s))%nat
  /\ last_keepalive (state_of (loop_body e s)) =
       if keepalive_due e s || init2_seen e s then u64 (time_ms e)
       else last_keepalive s.
Proof.
  destruct (timers_frame e s) as (Hu & _ & Hn & _ & Hr & _ & Ha & Hb & _ & _ & Hc).
  destruct (Z.ltb_spec 0 (select_res e)) as [Hsel | Hsel].
  - destruct (state_after_select e s Hsel) as (s4 & Hs4 & Hend).
    assert (keepalives (trace (state_of (loop_body e s))) = keepalives (trace s4)
            /\ last_keepalive (state_of (loop_body e s)) = last_keepalive s4)
      as [-> ->].
    { destruct Hend as [-> | ->]; [split; reflexivity|].
      unfold emit; simpl. rewrite keepalives_app; simpl. split; [lia|reflexivity]. }
    subst s4.
    rewrite keepalives_service_sock, keepalives_service_net,
      keepalives_service_uart, keepalives_timers.
    rewrite last_keepalive_service_sock, last_keepalive_service_net,
      last_keepalive_service_uart, timers_last_keepalive.
    rewrite Hu, Hn, Hb, Hc, (init2_seen_unfold e s Hsel).
    split; [reflexivity|].
    destruct (keepalive_due e s), (FD_ISSET _ _ && _); reflexivity.
  - rewrite loop_body_no_select by assumption. simpl.
    rewrite keepalives_timers, timers_last_keepalive,
      (init2_seen_no_select e s Hsel), orb_false_r.
    split; [simpl; lia|reflexivity].
Qed.

(** ** What the services leave alone *)

Lemma service_net_frame e fds s :
  uart_fd (service_net e fds s) = uart_fd s /\
  sock_fd (service_net e fds s) = sock_fd s /\
  rig_is_on (service_net e fds s) = rig_is_on s /\
  last_keepalive (service_net e fds s) = last_keepalive s /\
  current_time (service_net e fds s) = current_time s /\
  uart_buf (service_net e fds s) = uart_buf s.
Proof. unfold_handlers. split_cases; repeat split; reflexivity. Qed.

Lemma service_sock_frame e fds s :
  uart_fd (state_of (service_sock e fds s)) = uart_fd s /\
  sock_fd (state_of (service_sock e fds s)) = sock_fd s /\
  rig_is_on (state_of (service_sock e fds s)) = rig_is_on s /\
  last_keepalive (state_of (service_sock e fds s)) = last_keepalive s /\
  pwk_on_time (state_of (service_sock e fds s)) = pwk_on_time s /\
  current_time (state_of (service_sock e fds s)) = current_time s /\
  uart_buf (state_of (service_sock e fds s)) = uart_buf s /\
  net_buf (state_of (service_sock e fds s)) = net_buf s.
Proof. unfold_handlers. split_cases; repeat split; reflexivity. Qed.

Lemma uart_buf_service_uart e fds s :
  uart_buf (service_uart e fds s) =
    if FD_ISSET (uart_fd s) fds then
      let res := transfer_data e (uart_fd s) (net_fd s) (uart_buf s) in
      match fst res with
      | PKT_TYPE_INIT2 => add_write_errors (keepalive_init2_res e) (snd res)
      | _ => snd res
      end
    else uart_buf s.
Proof.
  unfold_handlers. destruct (FD_ISSET _ _); [|reflexivity].
  destruct (transfer_data _ _ _ _) as [[] buf]; reflexivity.
Qed.

Lemma timers_keepalive_res r e s :
  timers (with_keepalive_timer_res r e) s = timers e s.
Proof. unfold timers, keepalive_timer, send_keepalive. simpl. reflexivity. Qed.

Lemma services_keepalive_res r e s1 :
  (let read_fds := active_fds s1 ∩ select_ready (with_keepalive_timer_res r e) in
   service_sock (with_keepalive_timer_res r e) read_fds
     (service_net (with_keepalive_timer_res r e) read_fds
        (service_uart (with_keepalive_timer_res r e) read_fds s1))) =
  (let read_fds := active_fds s1 ∩ select_ready e in
   service_sock e read_fds (service_net e read_fds (service_uart e read_fds s1))).
Proof.
  simpl.
  assert (forall fds s, service_uart (with_keepalive_timer_res r e) fds s
                        = service_uart e fds s) as Hu by reflexivity.
  assert (forall fds s, service_net (with_keepalive_timer_res r e) fds s
                        = service_net e fds s) as Hn by reflexivity.
  assert (forall fds s, service_sock (with_keepalive_timer_res r e) fds s
                        = service_sock e fds s) as Hk by reflexivity.
  rewrite Hu, Hn, Hk. reflexivity.
Qed.

Lemma loop_body_keepalive_res r e s :
  loop_body (with_keepalive_timer_res r e) s = loop_body e s.
Proof.
  unfold loop_body. rewrite timers_keepalive_res.
  generalize (timers e s). intros s1.
  change (select_res (with_keepalive_timer_res r e)) with (select_res e).
  destruct (select_res e <=? 0); [reflexivity|].
  pose proof (services_keepalive_res r e s1) as H. simpl in H.
  simpl. rewrite H. reflexivity.
Qed.

(** C10: the value returned by the periodic [send_keepalive] has no
    influence on the pass at all, and when that keepalive is written no
    write-error counter moves; the value returned by the [send_keepalive]
    that follows an INIT2 is added to [uart_buf.write_errors]. *)
Theorem keepalive_failure_accounting (e : iter_env) (s : state) :
  (forall r, loop_body (with_keepalive_timer_res r e) s = loop_body e s)
  /\ (keepalive_due e s = true ->
      keepalives (trace (timers e s)) = S (keepalives (trace s))
      /\ write_errors (uart_buf (timers e s)) = write_errors (uart_buf s)
      /\ write_errors (net_buf (timers e s)) = write_errors (net_buf s))
  /\ (init2_seen e s = true ->
      write_errors (uart_buf (state_of (loop_body e s))) =
        u32 (write_errors
               (snd (transfer_data e (uart_fd s) (net_fd s) (uart_buf s)))
             + keepalive_init2_res e)).
Proof.
  split; [|split].
  - intros r. apply loop_body_keepalive_res.
  - intros Hdue.
    destruct (timers_frame e s) as (_ & _ & _ & _ & _ & _ & _ & -> & -> & _).
    rewrite keepalives_timers, Hdue. simpl. repeat split; lia.
  - intros Hinit.
    destruct (Z.ltb_spec 0 (select_res e)) as [Hsel | Hsel];
      [|rewrite init2_seen_no_select in Hinit by assumption; discriminate].
    destruct (timers_frame e s) as (Hu & _ & Hn & _ & _ & _ & _ & Hb & _).
    destruct (state_after_select e s Hsel) as (s4 & Hs4 & Hend).
    assert (uart_buf (state_of (loop_body e s)) = uart_buf s4) as ->
      by (destruct Hend as [-> | ->]; reflexivity).
    subst s4.
    destruct (service_sock_frame e (active_fds s ∩ select_ready e)
      (service_net e (active_fds s ∩ select_ready e)
         (service_uart e (active_fds s ∩ select_ready e) (timers e s))))
      as (_ & _ & _ & _ & _ & _ & -> & _).
    destruct (service_net_frame e (active_fds s ∩ select_ready e)
      (service_uart e (active_fds s ∩ select_ready e) (timers e s)))
      as (_ & _ & _ & _ & _ & ->).
    rewrite uart_buf_service_uart, Hu, Hn, Hb.
    rewrite init2_seen_unfold in Hinit by assumption.
    apply andb_true_iff in Hinit as [-> Hpkt]. simpl.
    destruct (fst _); try discriminate. reflexivity.
Qed.

Lemma keepalive_failure_accounting_witness :
  write_errors (uart_buf (state_of (loop_body (uart_env 1010 PKT_TYPE_INIT2 1) s_client))) =
    u32 (0 + 1)
  /\ (keepalives (trace (timers (idle_keepalive 1200 1) s_rig_on)) =
        S (keepalives (trace s_rig_on))
      /\ write_errors (uart_buf (timers (idle_keepalive 1200 1) s_rig_on)) =
           write_errors (uart_buf s_rig_on)
      /\ write_errors (net_buf (timers (idle_keepalive 1200 1) s_rig_on)) =
           write_errors (net_buf s_rig_on)).
Proof.
  split.
  - exact (proj2 (proj2 (keepalive_failure_accounting
                           (uart_env 1010 PKT_TYPE_INIT2 1) s_client))
             eq_refl).
  - exact (proj1 (proj2 (keepalive_failure_accounting
                           (idle_keepalive 1200 1) s_rig_on))
             eq_refl).
Defined.

(** ** The power-button pulse *)

Lemma pwk_level_app tr1 tr2 :
  pwk_level (tr1 ++ tr2) =
    fold_left (fun v ev =>
                 match ev with
                 | GpioSetValue pin value => if pin =? GPIO_PWK then value else v
                 | _ => v
                 end) tr2 (pwk_level tr1).
Proof. unfold pwk_level. apply fold_left_app. Qed.

(** What [on_pwk] does, whether or not a pulse is pending. *)
Lemma on_pwk_cases s :
  on_pwk s =
    if data_at (net_buf s) 2 =? rig_is_on s then
      set_trace (trace s ++ [Diag (MsgPower (negb (data_at (net_buf s) 2 =? 0)))]) s
    else
      set_pwk_on_time (current_time s)
        (set_trace (trace s ++ [Diag (MsgPower (negb (data_at (net_buf s) 2 =? 0)));
                                GpioSetValue GPIO_PWK 1]) s).
Proof.
  unfold on_pwk, gpio_set_value, emit. simpl.
  destruct (data_at (net_buf s) 2 =? rig_is_on s); simpl;
    rewrite <- ?app_assoc; reflexivity.
Qed.


Lemma s_client_reachable : reachable s_client.
Proof.
  apply (reachable_pass (conn_env 1000 7 99) s_entry).
  - apply (reachable_entry good_setup). vm_compute. reflexivity.
  - vm_compute. reflexivity.
Qed.

Lemma s_pulse_reachable : reachable s_pulse.
Proof.
  apply (reachable_pass (pwk_env 1100 1) s_client).
  - apply s_client_reachable.
  - vm_compute. reflexivity.
Qed.

Lemma s_rig_on_reachable : reachable s_rig_on.
Proof.
  apply (reachable_pass (uart_env 1010 PKT_TYPE_INIT2 0) s_client).
  - apply s_client_reachable.
  - vm_compute. reflexivity.
Qed.



(** For a payload byte that is 0 or 1 the pulse is started exactly when
    the requested state differs from the rig state. *)
Lemma on_pwk_boolean_payload (s : state) (req on : bool) :
  data_at (net_buf s) 2 = Z.b2z req -> rig_is_on s = Z.b2z on ->
  on_pwk s =
    if eqb req on then
      set_trace (trace s ++ [Diag (MsgPower req)]) s
    else
      set_pwk_on_time (current_time s)
        (set_trace (trace s ++ [Diag (MsgPower req); GpioSetValue GPIO_PWK 1]) s).
Proof.
  intros Hd Hr. rewrite on_pwk_cases, Hd, Hr.
  destruct req, on; reflexivity.
Qed.

(** C5 at the payload byte 2 with the rig on: the message is logged as a
    request for "on", which is the state the rig is in, and the line is
    asserted all the same. *)
Theorem pwk_payload_two_when_on :
  reachable s_rig_on /\ rig_is_on s_rig_on = 1 /\
  pwk_on_time s_rig_on = 0 /\
  pwk_on_time (state_of (loop_body (pwk_env 1100 2) s_rig_on)) = 1100 /\
  trace (state_of (loop_body (pwk_env 1100 2) s_rig_on)) =
    trace s_rig_on ++ [TransferData 7 3; Diag (MsgPower true);
                       GpioSetValue GPIO_PWK 1; Usleep].
Proof.
  split; [exact s_rig_on_reachable|]. vm_compute. repeat split; reflexivity.
Qed.

(** ** The client slot *)



Lemma service_uart_slot e fds s :
  client_socks (service_uart e fds s) = client_socks s /\
  connected (service_uart e fds s) = connected s /\
  net_fd (service_uart e fds s) = net_fd s.
Proof. unfold_handlers. split_cases; repeat split; reflexivity. Qed.

Lemma client_inv_service_net e fds s :
  client_inv s -> client_inv (service_net e fds s).
Proof.
  intros Hinv. unfold service_net.
  destruct (connected s =? 0) eqn:Hc; simpl; [exact Hinv|].
  destruct (FD_ISSET _ _); [|exact Hinv].
  destruct (transfer_data _ _ _ _) as [pkt buf].
  destruct pkt; try exact Hinv.
  - rewrite on_pwk_cases. unfold client_inv, slot in *. simpl.
    destruct (_ =? rig_is_on _); simpl; exact Hinv.
  - unfold client_inv, slot, on_eof, close, FD_CLR, emit in *. simpl.
    rewrite Hc in Hinv. set_unfold. intros x. specialize (Hinv x). tauto.
Qed.

Lemma client_inv_on_accept new addr s :
  client_inv s -> client_inv (on_accept new addr (accepted new s)).
Proof.
  unfold client_inv, slot, on_accept, accepted, close, FD_SET, FD_CLR, emit.
  simpl. intros Hinv.
  destruct (connected s =? 0) eqn:Hc; simpl;
    [set_unfold; intros x; specialize (Hinv x); tauto|].
  destruct (client_addr s =? addr); simpl; rewrite ?Hc; set_unfold;
    intros x; specialize (Hinv x); tauto.
Qed.

Lemma client_inv_service_sock e fds s :
  client_inv s -> client_inv (state_of (service_sock e fds s)).
Proof.
  intros H. unfold service_sock.
  destruct (FD_ISSET _ _); [|exact H].
  destruct (accept_res e =? -1); simpl; [exact H|].
  apply client_inv_on_accept, H.
Qed.

Lemma client_inv_loop_body e s :
  client_inv s -> client_inv (state_of (loop_body e s)).
Proof.
  intros H.
  assert (client_inv (timers e s)) as Ht.
  { destruct (timers_frame e s) as (_ & _ & Hn & Hc & _ & _ & _ & _ & _ & Hs & _).
    unfold client_inv, slot in *. rewrite Hn, Hc, Hs. exact H. }
  destruct (Z.ltb_spec 0 (select_res e)) as [Hsel | Hsel].
  - destruct (state_after_select e s Hsel) as (s4 & Hs4 & Hend).
    assert (client_inv s4) as H4.
    { subst s4. apply client_inv_service_sock, client_inv_service_net.
      destruct (service_uart_slot e (active_fds s ∩ select_ready e) (timers e s))
        as (Hs & Hc & Hn).
      unfold client_inv, slot in *. rewrite Hs, Hc, Hn. exact Ht. }
    destruct Hend as [-> | ->]; exact H4.
  - rewrite loop_body_no_select by assumption. exact Ht.
Qed.

Lemma setup_done_slot se s :
  setup se = SetupDone s -> client_socks s = ∅ /\ connected s = 0.
Proof.
  unfold setup. destruct (parse_options _ _); [|discriminate].
  unfold warn_unless, enter_loop, FD_SET, emit.
  split_cases; intros H; try discriminate; injection H as <-;
    split; reflexivity.
Qed.

Lemma reachable_client_inv s : reachable s -> client_inv s.
Proof.
  induction 1 as [se s Hs | e s s' _ IH Hstep].
  - destruct (setup_done_slot se s Hs) as [Hc _].
    unfold client_inv. rewrite Hc. set_solver.
  - pose proof (client_inv_loop_body e s IH) as H.
    rewrite Hstep in H. exact H.
Qed.

Lemma client_inv_size s : client_inv s -> (size (client_socks s) <= 1)%nat.
Proof.
  unfold client_inv, slot. intros H.
  apply subseteq_size in H.
  destruct (connected s =? 0).
  - rewrite size_empty in H. lia.
  - rewrite size_singleton in H. exact H.
Qed.

(** The slot at work: a first client fills it, the same address replaces
    the socket, another address leaves it as it is. *)
Lemma slot_filled_example :
  client_socks s_client = {[7]} /\ slot s_client = {[7]} /\
  client_socks (state_of (loop_body (conn_env 1200 8 99) s_client)) = {[8]} /\
  client_socks (state_of (loop_body (conn_env 1200 8 55) s_client)) = {[7]}.
Proof. vm_compute. repeat split; reflexivity. Qed.

(** ** Leaving the program *)

Lemma cleanup_spec code s :
  cleanup code s = (code, trace s ++ cleanup_effects code s).
Proof.
  unfold cleanup, cleanup_effects, close, emit. simpl.
  rewrite <- !app_assoc. reflexivity.
Qed.

Lemma parse_options_exit argv o :
  match parse_options argv o with
  | Parsed _ => first_exit_option argv = None
  | Exited code tr => first_exit_option argv = Some code /\ tr = [Diag MsgHelp]
  end.
Proof.
  revert o. induction argv as [|[p|u| |] rest IH]; intros o; simpl;
    try apply IH; auto.
Qed.

(** How setup ends, read off the environment. *)
Lemma setup_result_spec se :
  match setup se with
  | SetupExit code tr =>
      direct_exit se = true /\ existsb is_report tr = false
      /\ (code = EXIT_FAILURE <-> setup_fails se = true)
  | SetupCleanup _ => direct_exit se = false /\ setup_fails se = true
  | SetupDone _ => direct_exit se = false /\ setup_fails se = false
  end.
Proof.
  unfold setup, direct_exit, setup_fails, setup_call_fails.
  pose proof (parse_options_exit (argv se) default_options) as Hp.
  destruct (parse_options _ _) as [o | code tr]; simpl in Hp.
  - rewrite Hp. unfold warn_unless, emit. simpl.
    destruct (open_res se =? -1) eqn:Ho; simpl.
    + split; [reflexivity|]. split; [|tauto].
      destruct (signal_sigint_ok se), (signal_sigterm_ok se); reflexivity.
    + destruct (set_serial_config_res se =? -1); simpl; [auto|].
      destruct (gpio_init_out_res se =? -1); simpl; [auto|].
      destruct (socket_res se =? -1); simpl; [auto|].
      destruct (bind_res se =? -1); simpl; [auto|].
      destruct (listen_res se =? -1); simpl; auto.
  - destruct Hp as [-> ->]. split; [reflexivity|]. split.
    + unfold warn_unless, emit.
      destruct (signal_sigint_ok se), (signal_sigterm_ok se); reflexivity.
    + split; [intros ->; reflexivity|apply Z.eqb_eq].
Qed.

(** A pass leaves the loop exactly when its [accept] fails. *)
Lemma loop_body_cleanup_iff e s :
  (exists s', loop_body e s = Cleanup s') <-> accept_fails e s = true.
Proof.
  unfold accept_fails.
  destruct (Z.ltb_spec 0 (select_res e)) as [Hsel | Hsel]; simpl.
  - rewrite loop_body_after_select by assumption. simpl.
    set (fds := active_fds s ∩ select_ready e).
    set (s3 := service_net e fds (service_uart e fds (timers e s))).
    assert (sock_fd s3 = sock_fd s) as Hfd.
    { subst s3.
      destruct (service_net_frame e fds (service_uart e fds (timers e s)))
        as (_ & -> & _).
      destruct (timers_frame e s) as (_ & <- & _).
      unfold_handlers. split_cases; reflexivity. }
    unfold service_sock. rewrite Hfd.
    destruct (FD_ISSET (sock_fd s) fds); simpl.
    + destruct (accept_res e =? -1); split;
        [reflexivity|eauto|intros [s' H]; discriminate|discriminate].
    + split; [intros [s' H]; discriminate|discriminate].
  - rewrite loop_body_no_select by assumption.
    split; [intros [s' H]; discriminate|discriminate].
Qed.

Lemma loop_body_cleanup_false e s :
  accept_fails e s = false -> loop_body e s = Next (state_of (loop_body e s)).
Proof.
  intros H. destruct (loop_body e s) as [s' | s'] eqn:Hl; [reflexivity|].
  assert (accept_fails e s = true) by (apply loop_body_cleanup_iff; eauto).
  congruence.
Qed.

Lemma event_loop_exit iters s :
  fst (event_loop iters s) =
    if accept_fails_during iters s then EXIT_FAILURE else EXIT_SUCCESS.
Proof.
  revert s. induction iters as [|e rest IH]; intros s; simpl; [reflexivity|].
  destruct (accept_fails e s) eqn:Hf; simpl.
  - apply loop_body_cleanup_iff in Hf as [s' ->]. reflexivity.
  - rewrite (loop_body_cleanup_false e s Hf). apply IH.
Qed.

Lemma main_spec se iters :
  main se iters =
    match setup se with
    | SetupExit code tr => (code, tr ++ [Exit code])
    | SetupCleanup s => (EXIT_FAILURE, trace s ++ cleanup_effects EXIT_FAILURE s)
    | SetupDone s =>
        (fst (event_loop iters s),
         trace (snd (event_loop iters s))
         ++ cleanup_effects (fst (event_loop iters s)) (snd (event_loop iters s)))
    end.
Proof.
  unfold main. destruct (setup se); [reflexivity|apply cleanup_spec|].
  destruct (event_loop iters s). apply cleanup_spec.
Qed.

(** C2, as the code has it: the process exits with the failure status
    exactly when setup fails (an unknown option, or a failing open,
    serial configuration, GPIO export, socket, bind or listen), in which
    case the loop is never entered, or when [accept] fails in some pass of
    the running loop; a pass leaves the loop exactly when its [accept]
    fails, so every other failure inside the loop lets it continue. *)
Theorem failure_exit_causes (se : setup_env) (iters : list iter_env) :
  (fst (main se iters) = EXIT_FAILURE <->
     setup_fails se = true
     \/ exists s0, setup se = SetupDone s0 /\ accept_fails_during iters s0 = true)
  /\ (setup_fails se = true -> forall s0, setup se <> SetupDone s0)
  /\ (forall e s, (exists s', loop_body e s = Cleanup s') <-> accept_fails e s = true)
  /\ (forall e s, accept_fails e s = false -> exists s', loop_body e s = Next s').
Proof.
  pose proof (setup_result_spec se) as Hs.
  split; [|split; [|split]].
  - rewrite main_spec. destruct (setup se) as [code tr | s | s]; simpl.
    + destruct Hs as (_ & _ & Hc). split; [intros H; left; apply Hc, H|].
      intros [H | (s0 & H & _)]; [apply Hc, H|discriminate].
    + destruct Hs as (_ & Hf). split; [auto|reflexivity].
    + destruct Hs as (_ & Hf). rewrite event_loop_exit.
      destruct (accept_fails_during iters s) eqn:Ha.
      * split; [eauto|reflexivity].
      * split; [discriminate|].
        intros [H | (s0 & H & Hb)]; [congruence|].
        injection H as <-. congruence.
  - intros Hf s0 Heq. rewrite Heq in Hs. destruct Hs as [_ Hs]. congruence.
  - apply loop_body_cleanup_iff.
  - intros e s H. rewrite (loop_body_cleanup_false e s H). eauto.
Qed.

Lemma failure_exit_causes_witness :
  fst (main bind_fails [idle 1000]) = EXIT_FAILURE
  /\ fst (main good_setup [idle 1000; accept_error_env 1050; idle 1100]) = EXIT_FAILURE
  /\ exists s', loop_body (idle_keepalive 1200 1) s_rig_on = Next s'.
Proof.
  split; [|split].
  - apply (proj1 (failure_exit_causes bind_fails [idle 1000])).
    left. vm_compute. reflexivity.
  - apply (proj1 (failure_exit_causes good_setup
                    [idle 1000; accept_error_env 1050; idle 1100])).
    right. exists s_entry. split; vm_compute; reflexivity.
  - apply (proj2 (proj2 (proj2 (failure_exit_causes good_setup [])))).
    vm_compute. reflexivity.
Defined.

(** A failing [accept] in the running loop ends the process with the
    failure status although setup went through. *)
Lemma accept_failure_is_fatal :
  setup good_setup = SetupDone s_entry /\
  loop_body (accept_error_env 1000) s_entry =
    Cleanup (set_current_time 1000
               (set_trace (trace s_entry ++ [Diag MsgErrAccept]) s_entry)) /\
  main good_setup [accept_error_env 1000; idle 1050] =
    (EXIT_FAILURE,
     [Diag (MsgUsingPort 42000); Diag (MsgUsingUart "/dev/ttyO1");
      Diag MsgErrAccept; Close 3; Close (-1); Close 4;
      ReportValid 0 0; ReportInvalid 0 0; ReportWriteErrors 0 0;
      Exit EXIT_FAILURE]).
Proof. vm_compute. repeat split; reflexivity. Qed.

Lemma existsb_report_app tr1 tr2 :
  existsb is_report (tr1 ++ tr2) = existsb is_report tr1 || existsb is_report tr2.
Proof. apply existsb_app. Qed.

(** C4, as the code has it: whenever the process leaves through the
    [cleanup] section (a failing serial configuration, GPIO export,
    socket, bind or listen, a failing accept, or the end of the loop after
    a signal) its last effects are the three closes, the report of the
    valid-packet, invalid-packet and write-error counters of both buffers
    as they are then, and the exit; when it leaves from option parsing or
    because the serial device cannot be opened, nothing is reported. *)
Theorem report_before_exit (se : setup_env) (iters : list iter_env) :
  (direct_exit se = false ->
   snd (main se iters) =
     trace (final_state se iters)
     ++ cleanup_effects (fst (main se iters)) (final_state se iters))
  /\ (direct_exit se = true ->
      existsb is_report (snd (main se iters)) = false).
Proof.
  pose proof (setup_result_spec se) as Hs.
  rewrite main_spec. unfold final_state.
  destruct (setup se) as [code tr | s | s]; simpl.
  - destruct Hs as (Hd & Hr & _). split; [congruence|].
    intros _. rewrite existsb_report_app, Hr. reflexivity.
  - destruct Hs as (Hd & _). split; [reflexivity|congruence].
  - destruct Hs as (Hd & _). split; [reflexivity|congruence].
Qed.

Lemma report_before_exit_witness :
  snd (main bind_fails [idle 1000]) =
    trace (final_state bind_fails [idle 1000])
    ++ cleanup_effects (fst (main bind_fails [idle 1000]))
         (final_state bind_fails [idle 1000])
  /\ existsb is_report (snd (main uart_open_fails [idle 1000])) = false.
Proof.
  split.
  - apply (proj1 (report_before_exit bind_fails [idle 1000])).
    vm_compute. reflexivity.
  - apply (proj2 (report_before_exit uart_open_fails [idle 1000])).
    vm_compute. reflexivity.
Defined.

(** When the serial device cannot be opened the process exits with the
    failure status and no counter is reported. *)
Lemma uart_open_failure_no_report :
  main uart_open_fails [] =
    (EXIT_FAILURE,
     [Diag (MsgUsingPort 42000); Diag (MsgUsingUart "/dev/ttyO1");
      Diag MsgErrUartOpen; Exit EXIT_FAILURE])
  /\ existsb is_report (snd (main uart_open_fails [])) = false.
Proof. vm_compute. split; reflexivity. Qed.

(** The same report after a clean shutdown and after a failing bind. *)
Lemma report_examples :
  main good_setup [] =
    (EXIT_SUCCESS,
     [Diag (MsgUsingPort 42000); Diag (MsgUsingUart "/dev/ttyO1");
      Diag MsgShuttingDown; Close 3; Close (-1); Close 4;
      ReportValid 0 0; ReportInvalid 0 0; ReportWriteErrors 0 0;
      Exit EXIT_SUCCESS])
  /\ main bind_fails [] =
       (EXIT_FAILURE,
        [Diag (MsgUsingPort 42000); Diag (MsgUsingUart "/dev/ttyO1");
         Diag MsgErrBind; Close 3; Close (-1); Close 4;
         ReportValid 0 0; ReportInvalid 0 0; ReportWriteErrors 0 0;
         Exit EXIT_FAILURE]).
Proof. vm_compute. split; reflexivity. Qed.

(** ** Release of the PWK line *)

Lemma pwk_on_time_service_uart e fds s :
  pwk_on_time (service_uart e fds s) = pwk_on_time s.
Proof. unfold_handlers. split_cases; reflexivity. Qed.

Lemma current_time_service_uart e fds s :
  current_time (service_uart e fds s) = current_time s.
Proof. unfold_handlers. split_cases; reflexivity. Qed.

Lemma pwk_timer_release e s :
  pwk_due e s = true ->
  pwk_on_time (timers e s) = 0 /\ pwk_level (trace (timers e s)) = 0.
Proof.
  intros Hdue. rewrite timers_pwk_on_time, timers_trace, Hdue.
  split; [reflexivity|].
  rewrite app_assoc, pwk_level_app. reflexivity.
Qed.

Lemma u64_small x : 0 <= x < 2 ^ 64 -> u64 x = x.
Proof. intros H. unfold u64. apply Z.mod_small. exact H. Qed.

(** * Further properties of the loop *)

(** ** What the UART service leaves alone *)

Lemma service_uart_frame e fds s :
  uart_fd (service_uart e fds s) = uart_fd s /\
  sock_fd (service_uart e fds s) = sock_fd s /\
  net_fd (service_uart e fds s) = net_fd s /\
  connected (service_uart e fds s) = connected s /\
  client_addr (service_uart e fds s) = client_addr s /\
  active_fds (service_uart e fds s) = active_fds s /\
  net_buf (service_uart e fds s) = net_buf s /\
  client_socks (service_uart e fds s) = client_socks s /\
  pwk_on_time (service_uart e fds s) = pwk_on_time s /\
  current_time (service_uart e fds s) = current_time s.
Proof. unfold_handlers. split_cases; repeat split; reflexivity. Qed.

(** ** The watched descriptors *)

Lemma watch_inv_service_net e fds s :
  watch_inv s -> watch_inv (service_net e fds s).
Proof.
  intros Hinv. unfold service_net.
  destruct (connected s =? 0) eqn:Hc; simpl; [exact Hinv|].
  destruct (FD_ISSET _ _); [|exact Hinv].
  destruct (transfer_data _ _ _ _) as [pkt buf].
  destruct pkt; try exact Hinv.
  - rewrite on_pwk_cases. unfold watch_inv, slot in *. simpl.
    destruct (_ =? rig_is_on _); simpl; exact Hinv.
  - unfold watch_inv, slot, on_eof, close, FD_CLR, emit in *. simpl.
    rewrite Hc in Hinv. destruct Hinv as [H1 H2].
    split; set_unfold; intros x; specialize (H1 x); specialize (H2 x); tauto.
Qed.

Lemma watch_inv_on_accept new addr s :
  watch_inv s -> watch_inv (on_accept new addr (accepted new s)).
Proof.
  unfold watch_inv, slot, on_accept, accepted, close, FD_SET, FD_CLR, emit.
  simpl. intros [H1 H2].
  destruct (connected s =? 0) eqn:Hc; simpl.
  - split; set_unfold; intros x; specialize (H1 x); specialize (H2 x); tauto.
  - destruct (client_addr s =? addr); simpl; rewrite ?Hc;
      split; set_unfold; intros x; specialize (H1 x); specialize (H2 x); tauto.
Qed.

Lemma watch_inv_service_sock e fds s :
  watch_inv s -> watch_inv (state_of (service_sock e fds s)).
Proof.
  intros Hinv. unfold service_sock.
  destruct (FD_ISSET _ _); [|exact Hinv].
  destruct (accept_res e =? -1); simpl; [exact Hinv|].
  apply watch_inv_on_accept, Hinv.
Qed.

Lemma watch_inv_loop_body e s :
  watch_inv s -> watch_inv (state_of (loop_body e s)).
Proof.
  intros Hinv.
  assert (watch_inv (timers e s)) as Ht.
  { destruct (timers_frame e s) as (Hu & Hk & Hn & Hc & _ & _ & Ha & _).
    unfold watch_inv, slot in *. rewrite Hu, Hk, Hn, Hc, Ha. exact Hinv. }
  destruct (Z.ltb_spec 0 (select_res e)) as [Hsel | Hsel].
  - destruct (state_after_select e s Hsel) as (s4 & Hs4 & Hend).
    assert (watch_inv s4) as H4.
    { subst s4. apply watch_inv_service_sock, watch_inv_service_net.
      destruct (service_uart_frame e (active_fds s ∩ select_ready e) (timers e s))
        as (Hu & Hk & Hn & Hc & _ & Ha & _).
      unfold watch_inv, slot in *. rewrite Hu, Hk, Hn, Hc, Ha. exact Ht. }
    destruct Hend as [-> | ->]; exact H4.
  - rewrite loop_body_no_select by assumption. exact Ht.
Qed.

Lemma setup_done_entry se s :
  setup se = SetupDone s ->
  uart_fd s = open_res se /\ sock_fd s = socket_res se /\
  uart_fd s <> -1 /\ sock_fd s <> -1 /\
  net_fd s = -1 /\ connected s = 0 /\ rig_is_on s = 0 /\ client_addr s = 0 /\
  pwk_on_time s = 0 /\ last_keepalive s = 0 /\ current_time s = 0 /\
  active_fds s = {[open_res se; socket_res se]} /\
  uart_buf s = mkBuf (uart_data0 se) 0 0 0 0 /\
  net_buf s = mkBuf (net_data0 se) 0 0 0 0 /\
  client_socks s = ∅ /\
  pwk_level (trace s) = 0 /\ keepalives (trace s) = 0%nat.
Proof.
  unfold setup. destruct (parse_options _ _) as [o|]; [|discriminate].
  unfold warn_unless, enter_loop, FD_SET, emit.
  destruct (signal_sigint_ok se), (signal_sigterm_ok se),
    (setsockopt_res se =? -1); simpl;
    (destruct (Z.eqb_spec (open_res se) (-1)) as [|Ho]; [discriminate|]);
    (destruct (set_serial_config_res se =? -1); [discriminate|]);
    (destruct (gpio_init_out_res se =? -1); [discriminate|]);
    (destruct (Z.eqb_spec (socket_res se) (-1)) as [|Hk]; [discriminate|]);
    (destruct (bind_res se =? -1); [discriminate|]);
    (destruct (listen_res se =? -1); [discriminate|]);
    intros H; injection H as <-; simpl;
    repeat split; try assumption; try reflexivity;
    apply leibniz_equiv; set_unfold; intros x; tauto.
Qed.

Lemma reachable_watch_inv s : reachable s -> watch_inv s.
Proof.
  induction 1 as [se s Hs | e s s' _ IH Hstep].
  - destruct (setup_done_entry se s Hs)
      as (Hu & Hk & _ & _ & _ & Hc & _ & _ & _ & _ & _ & Ha & _).
    unfold watch_inv, slot. rewrite Hc, Ha, Hu, Hk. simpl.
    split; set_unfold; intros x; tauto.
  - pose proof (watch_inv_loop_body e s IH) as Hinv.
    rewrite Hstep in Hinv. exact Hinv.
Qed.

(** ** The flags and the empty slot *)

Lemma flag_inv_service_uart e fds s :
  flag_inv s -> flag_inv (service_uart e fds s).
Proof.
  unfold flag_inv. intros (Hc & Hr & Hn).
  destruct (service_uart_frame e fds s) as (_ & _ & -> & -> & -> & _).
  rewrite rig_is_on_service_uart.
  split; [exact Hc|]. split; [|exact Hn].
  destruct (FD_ISSET _ _); [|exact Hr].
  destruct (fst _); auto.
Qed.

Lemma flag_inv_service_net e fds s :
  flag_inv s -> flag_inv (service_net e fds s).
Proof.
  intros Hinv. unfold service_net.
  destruct (negb _ && _); [|exact Hinv].
  destruct (transfer_data _ _ _ _) as [pkt buf].
  destruct pkt; try exact Hinv.
  - rewrite on_pwk_cases. unfold flag_inv in *. simpl.
    destruct (_ =? rig_is_on _); simpl; exact Hinv.
  - unfold flag_inv, on_eof, close, FD_CLR, emit in *. simpl.
    destruct Hinv as (_ & Hr & _). auto.
Qed.

Lemma flag_inv_service_sock e fds s :
  flag_inv s -> flag_inv (state_of (service_sock e fds s)).
Proof.
  intros Hinv. unfold service_sock.
  destruct (FD_ISSET _ _); [|exact Hinv].
  destruct (accept_res e =? -1); simpl; [exact Hinv|].
  unfold flag_inv, on_accept, accepted, close, FD_SET, FD_CLR, emit in *.
  simpl. destruct Hinv as (Hc & Hr & Hn).
  destruct (Z.eqb_spec (connected s) 0) as [Hz | Hz]; simpl.
  - split; [auto|]. split; [exact Hr|]. intros H. discriminate.
  - destruct (client_addr s =? accept_addr e) eqn:Ha; simpl;
      (split; [exact Hc|]); (split; [exact Hr|]); intros H; contradiction.
Qed.

Lemma flag_inv_loop_body e s :
  flag_inv s -> flag_inv (state_of (loop_body e s)).
Proof.
  intros Hinv.
  assert (flag_inv (timers e s)) as Ht.
  { destruct (timers_frame e s) as (_ & _ & Hn & Hc & Hr & Ha & _).
    unfold flag_inv in *. rewrite Hn, Hc, Hr, Ha. exact Hinv. }
  destruct (Z.ltb_spec 0 (select_res e)) as [Hsel | Hsel].
  - destruct (state_after_select e s Hsel) as (s4 & Hs4 & Hend).
    assert (flag_inv s4) as H4.
    { subst s4. apply flag_inv_service_sock, flag_inv_service_net,
        flag_inv_service_uart, Ht. }
    destruct Hend as [-> | ->]; exact H4.
  - rewrite loop_body_no_select by assumption. exact Ht.
Qed.

Lemma reachable_flag_inv s : reachable s -> flag_inv s.
Proof.
  induction 1 as [se s Hs | e s s' _ IH Hstep].
  - destruct (setup_done_entry se s Hs)
      as (_ & _ & _ & _ & Hn & Hc & Hr & Ha & _).
    unfold flag_inv. auto.
  - pose proof (flag_inv_loop_body e s IH) as Hinv.
    rewrite Hstep in Hinv. exact Hinv.
Qed.

(** ** The pulse and the line *)

Lemma pwk_level_snoc tr ev :
  pwk_level (tr ++ [ev]) =
    match ev with
    | GpioSetValue pin value => if pin =? GPIO_PWK then value else pwk_level tr
    | _ => pwk_level tr
    end.
Proof. rewrite pwk_level_app. destruct ev; reflexivity. Qed.

Lemma u64_range x : 0 <= u64 x < 2 ^ 64.
Proof. unfold u64. apply Z.mod_pos_bound. lia. Qed.

Lemma pulse_inv_timers e s : pulse_inv s -> pulse_inv (timers e s).
Proof.
  unfold pulse_inv. intros (_ & Hp & Hk & Hl).
  destruct (timers_frame e s) as (_ & _ & _ & _ & _ & _ & _ & _ & _ & _ & ->).
  rewrite timers_pwk_on_time, timers_last_keepalive, timers_trace.
  pose proof (u64_range (time_ms e)) as Ht.
  split; [exact Ht|].
  destruct (pwk_due e s), (keepalive_due e s); simpl;
    rewrite ?app_nil_r, ?app_assoc, ?pwk_level_snoc;
    repeat split; try lia; try exact Hl; intros H; contradiction.
Qed.

Lemma pulse_inv_service_uart e fds s :
  pulse_inv s -> pulse_inv (service_uart e fds s).
Proof.
  unfold pulse_inv. intros (Hc & Hp & Hk & Hl).
  unfold_handlers. destruct (FD_ISSET _ _); [|auto].
  destruct (transfer_data _ _ _ _) as [[] buf]; simpl;
    rewrite ?pwk_level_snoc; auto.
Qed.

Lemma pulse_inv_service_net e fds s :
  pulse_inv s -> pulse_inv (service_net e fds s).
Proof.
  intros Hinv. unfold service_net.
  destruct (negb _ && _); [|exact Hinv].
  destruct (transfer_data _ _ _ _) as [pkt buf].
  unfold pulse_inv in *. destruct Hinv as (Hc & Hp & Hk & Hl).
  destruct pkt; try (unfold emit; simpl; rewrite ?pwk_level_snoc; auto; fail).
  rewrite on_pwk_cases. unfold emit. simpl.
  destruct (_ =? rig_is_on _); simpl.
    + rewrite !pwk_level_snoc. auto.
    + rewrite pwk_level_app. simpl. auto.
Qed.

Lemma pulse_inv_service_sock e fds s :
  pulse_inv s -> pulse_inv (state_of (service_sock e fds s)).
Proof.
  unfold pulse_inv. intros (Hc & Hp & Hk & Hl).
  unfold_handlers. destruct (FD_ISSET _ _); [|auto].
  destruct (accept_res e =? -1); simpl; [rewrite pwk_level_snoc; auto|].
  destruct (connected s =? 0); simpl; [rewrite !pwk_level_snoc; auto|].
  destruct (client_addr s =? accept_addr e); simpl;
    rewrite !pwk_level_snoc; auto.
Qed.

Lemma pulse_inv_loop_body e s :
  pulse_inv s -> pulse_inv (state_of (loop_body e s)).
Proof.
  intros Hinv. pose proof (pulse_inv_timers e s Hinv) as Ht.
  destruct (Z.ltb_spec 0 (select_res e)) as [Hsel | Hsel].
  - destruct (state_after_select e s Hsel) as (s4 & Hs4 & Hend).
    assert (pulse_inv s4) as H4.
    { subst s4. apply pulse_inv_service_sock, pulse_inv_service_net,
        pulse_inv_service_uart, Ht. }
    destruct Hend as [-> | ->]; [exact H4|].
    unfold pulse_inv, emit in *. simpl. rewrite pwk_level_snoc. exact H4.
  - rewrite loop_body_no_select by assumption. exact Ht.
Qed.

Lemma reachable_pulse_inv s : reachable s -> pulse_inv s.
Proof.
  induction 1 as [se s Hs | e s s' _ IH Hstep].
  - destruct (setup_done_entry se s Hs)
      as (_ & _ & _ & _ & _ & _ & _ & _ & Hp & Hk & Hc & _ & _ & _ & _ & Hl & _).
    unfold pulse_inv. rewrite Hp, Hk, Hc. repeat split; lia.
  - pose proof (pulse_inv_loop_body e s IH) as Hinv.
    rewrite Hstep in Hinv. exact Hinv.
Qed.

(** Every state the loop reaches, and every state a pass from there ends
    in, watches the slot's socket, and watches nothing but the serial
    port, the listening socket and the slot's socket. *)
Theorem watched_descriptors (s : state) :
  reachable s ->
  (slot s ⊆ active_fds s /\ active_fds s ⊆ {[uart_fd s; sock_fd s]} ∪ slot s)
  /\ forall e,
       slot (state_of (loop_body e s)) ⊆ active_fds (state_of (loop_body e s))
       /\ active_fds (state_of (loop_body e s))
          ⊆ {[uart_fd (state_of (loop_body e s));
              sock_fd (state_of (loop_body e s))]}
            ∪ slot (state_of (loop_body e s)).
Proof.
  intros Hr. pose proof (reachable_watch_inv s Hr) as Hinv.
  split; [exact Hinv|].
  intros e. exact (watch_inv_loop_body e s Hinv).
Qed.

Lemma watched_descriptors_witness :
  slot s_client ⊆ active_fds s_client
  /\ active_fds (state_of (loop_body (eof_env 1200) s_client))
     ⊆ {[uart_fd (state_of (loop_body (eof_env 1200) s_client));
         sock_fd (state_of (loop_body (eof_env 1200) s_client))]}
       ∪ slot (state_of (loop_body (eof_env 1200) s_client)).
Proof.
  split.
  - exact (proj1 (proj1 (watched_descriptors s_client
             (reachable_pass (conn_env 1000 7 99) s_entry s_client
                (reachable_entry good_setup s_entry eq_refl) eq_refl)))).
  - exact (proj2 (proj2 (watched_descriptors s_client
             (reachable_pass (conn_env 1000 7 99) s_entry s_client
                (reachable_entry good_setup s_entry eq_refl) eq_refl))
             (eof_env 1200))).
Defined.

(** In every state the loop reaches, [connected] and [rig_is_on] are 0 or
    1, and while [connected] is 0 the slot holds its reset values:
    [net_fd] is -1 and [client_addr] is 0. *)
Theorem flags_and_empty_slot (s : state) :
  reachable s ->
  (connected s = 0 \/ connected s = 1)
  /\ (rig_is_on s = 0 \/ rig_is_on s = 1)
  /\ (connected s = 0 -> net_fd s = -1 /\ client_addr s = 0).
Proof.
  intros Hr. pose proof (reachable_flag_inv s Hr) as Hinv.
  unfold flag_inv in Hinv. exact Hinv.
Qed.

Lemma flags_and_empty_slot_witness :
  (connected s_rig_on = 0 \/ connected s_rig_on = 1)
  /\ (rig_is_on s_rig_on = 0 \/ rig_is_on s_rig_on = 1)
  /\ (connected s_rig_on = 0 -> net_fd s_rig_on = -1 /\ client_addr s_rig_on = 0).
Proof.
  apply (flags_and_empty_slot s_rig_on).
  apply (reachable_pass (uart_env 1010 PKT_TYPE_INIT2 0) s_client);
    [|vm_compute; reflexivity].
  apply (reachable_pass (conn_env 1000 7 99) s_entry);
    [|vm_compute; reflexivity].
  apply (reachable_entry good_setup). vm_compute. reflexivity.
Defined.

(** In every state the loop reaches, the three time stamps fit
    [uint64_t], and while a pulse is recorded ([pwk_on_time] is not 0) the
    last value written to the PWK line is 1. *)
Theorem pending_pulse_line_high (s : state) :
  reachable s ->
  0 <= current_time s < 2 ^ 64
  /\ 0 <= pwk_on_time s < 2 ^ 64
  /\ 0 <= last_keepalive s < 2 ^ 64
  /\ (pwk_on_time s <> 0 -> pwk_level (trace s) = 1).
Proof.
  intros Hr. pose proof (reachable_pulse_inv s Hr) as Hinv.
  unfold pulse_inv in Hinv. exact Hinv.
Qed.

Lemma pending_pulse_line_high_witness :
  pwk_level (trace s_pulse) = 1.
Proof.
  refine (proj2 (proj2 (proj2 (pending_pulse_line_high s_pulse _))) _).
  - apply (reachable_pass (pwk_env 1100 1) s_client);
      [|vm_compute; reflexivity].
    apply (reachable_pass (conn_env 1000 7 99) s_entry);
      [|vm_compute; reflexivity].
    apply (reachable_entry good_setup). vm_compute. reflexivity.
  - vm_compute. discriminate.
Defined.

(** ** Entering the loop *)

(** Setup enters the loop exactly when no option makes [parse_options]
    exit and none of open, serial configuration, GPIO export, socket,
    bind and listen fails; the loop then starts with the rig off, no
    client, no pulse, both timers and all counters at 0, and exactly the
    serial port and the listening socket watched. *)
Theorem setup_enters_loop (se : setup_env) :
  ((exists s, setup se = SetupDone s) <->
     first_exit_option (argv se) = None /\ setup_call_fails se = false)
  /\ forall s, setup se = SetupDone s ->
       uart_fd s = open_res se /\ sock_fd s = socket_res se
       /\ uart_fd s <> -1 /\ sock_fd s <> -1
       /\ net_fd s = -1 /\ connected s = 0 /\ rig_is_on s = 0
       /\ client_addr s = 0 /\ pwk_on_time s = 0 /\ last_keepalive s = 0
       /\ active_fds s = {[open_res se; socket_res se]}
       /\ uart_buf s = mkBuf (uart_data0 se) 0 0 0 0
       /\ net_buf s = mkBuf (net_data0 se) 0 0 0 0
       /\ pwk_level (trace s) = 0 /\ keepalives (trace s) = 0%nat.
Proof.
  split.
  - pose proof (setup_result_spec se) as Hs.
    unfold direct_exit, setup_fails in Hs.
    destruct (setup se) as [code tr | s | s].
    + split; [intros [s H]; discriminate|].
      intros [Hopt Hcall]. destruct Hs as (Hd & _ & _).
      rewrite Hopt in Hd. unfold setup_call_fails in Hcall.
      rewrite Hd in Hcall. discriminate.
    + split; [intros [s' H]; discriminate|].
      intros [Hopt Hcall]. destruct Hs as (_ & Hf).
      rewrite Hopt in Hf. congruence.
    + split; [intros _|eauto].
      destruct Hs as (Hd & Hf).
      destruct (first_exit_option (argv se)); [discriminate|].
      split; [reflexivity|exact Hf].
  - intros s Hs.
    destruct (setup_done_entry se s Hs)
      as (H1 & H2 & H3 & H4 & H5 & H6 & H7 & H8 & H9 & H10 & _ & H12 & H13
          & H14 & _ & H16 & H17).
    repeat split; assumption.
Qed.

Lemma setup_enters_loop_witness :
  (exists s, setup good_setup = SetupDone s)
  /\ active_fds s_entry = {[open_res good_setup; socket_res good_setup]}.
Proof.
  split.
  - apply (proj1 (setup_enters_loop good_setup)). vm_compute.
    split; reflexivity.
  - apply (proj2 (setup_enters_loop good_setup) s_entry). vm_compute.
    reflexivity.
Defined.

Lemma vars_warn_unless ok m s : vars (warn_unless ok m s) = vars s.
Proof. destruct ok; reflexivity. Qed.

Lemma vars_emit ev s : vars (emit ev s) = vars s.
Proof. reflexivity. Qed.

Lemma vars_set_uart_fd v s : vars (set_uart_fd v s) = set_uart_fd v (vars s).
Proof. reflexivity. Qed.

Lemma vars_set_sock_fd v s : vars (set_sock_fd v s) = set_sock_fd v (vars s).
Proof. reflexivity. Qed.

Lemma vars_enter_loop s : vars (enter_loop s) = enter_loop (vars s).
Proof. reflexivity. Qed.

(** With any results for [setsockopt] and the two [signal] calls setup
    ends the same way, with the same exit status or the same variables. *)
Lemma setup_warnings_vars (i t : bool) (r : Z) (se : setup_env) :
  match setup se, setup (with_warnings i t r se) with
  | SetupExit c _, SetupExit c' _ => c = c'
  | SetupCleanup s, SetupCleanup s' => vars s = vars s'
  | SetupDone s, SetupDone s' => vars s = vars s'
  | _, _ => False
  end.
Proof.
  unfold setup, with_warnings.
  cbn [signal_sigint_ok signal_sigterm_ok argv open_res set_serial_config_res
       gpio_init_out_res socket_res setsockopt_res bind_res listen_res].
  destruct (parse_options (argv se) default_options) as [o | code tr];
    [|reflexivity].
  assert (vars (warn_unless (signal_sigterm_ok se) MsgWarnSigterm
                  (warn_unless (signal_sigint_ok se) MsgWarnSigint
                     (initial_state se)))
          = vars (warn_unless t MsgWarnSigterm
                    (warn_unless i MsgWarnSigint
                       (initial_state
                          (mkSetup i t (argv se) (open_res se)
                             (set_serial_config_res se) (gpio_init_out_res se)
                             (socket_res se) r (bind_res se) (listen_res se)
                             (uart_data0 se) (net_data0 se)))))) as Hv
    by (rewrite !vars_warn_unless; reflexivity).
  revert Hv.
  generalize (warn_unless (signal_sigterm_ok se) MsgWarnSigterm
                (warn_unless (signal_sigint_ok se) MsgWarnSigint
                   (initial_state se))).
  generalize (warn_unless t MsgWarnSigterm
                (warn_unless i MsgWarnSigint
                   (initial_state
                      (mkSetup i t (argv se) (open_res se)
                         (set_serial_config_res se) (gpio_init_out_res se)
                         (socket_res se) r (bind_res se) (listen_res se)
                         (uart_data0 se) (net_data0 se))))).
  intros s2' s2 Hv. cbv zeta.
  cbn [uart_fd sock_fd set_uart_fd set_sock_fd].
  destruct (open_res se =? -1); [reflexivity|].
  destruct (set_serial_config_res se =? -1);
    [rewrite !vars_emit, !vars_set_uart_fd, !vars_emit, Hv; reflexivity|].
  destruct (gpio_init_out_res se =? -1);
    [rewrite !vars_emit, !vars_set_uart_fd, !vars_emit, Hv; reflexivity|].
  destruct (socket_res se =? -1);
    [rewrite !vars_emit, !vars_set_sock_fd, !vars_set_uart_fd, !vars_emit, Hv;
     reflexivity|].
  destruct (bind_res se =? -1), (listen_res se =? -1);
    rewrite ?vars_enter_loop, ?vars_emit, !vars_warn_unless,
      !vars_set_sock_fd, !vars_set_uart_fd, !vars_emit, Hv; reflexivity.
Qed.

(** ** A pass seen from the client slot *)

(** The state in which the network socket is serviced. *)
Lemma before_service_net e s :
  let s2 := service_uart e (active_fds s ∩ select_ready e) (timers e s) in
  uart_fd s2 = uart_fd s /\ sock_fd s2 = sock_fd s /\ net_fd s2 = net_fd s /\
  connected s2 = connected s /\ client_addr s2 = client_addr s /\
  active_fds s2 = active_fds s /\ net_buf s2 = net_buf s /\
  client_socks s2 = client_socks s /\
  pwk_on_time s2 = (if pwk_due e s then 0 else pwk_on_time s) /\
  current_time s2 = u64 (time_ms e).
Proof.
  simpl.
  destruct (service_uart_frame e (active_fds s ∩ select_ready e) (timers e s))
    as (-> & -> & -> & -> & -> & -> & -> & -> & -> & ->).
  destruct (timers_frame e s)
    as (-> & -> & -> & -> & _ & -> & -> & _ & -> & -> & ->).
  rewrite timers_pwk_on_time. repeat split; reflexivity.
Qed.

Lemma net_seen_unfold e s :
  0 < select_res e ->
  net_seen e s =
    if negb (connected s =? 0)
       && FD_ISSET (net_fd s) (active_fds s ∩ select_ready e)
    then Some (transfer_data e (net_fd s) (uart_fd s) (net_buf s))
    else None.
Proof.
  intros H. unfold net_seen.
  assert ((0 <? select_res e) = true) as -> by lia. reflexivity.
Qed.

Lemma net_seen_select e s x : net_seen e s = Some x -> 0 < select_res e.
Proof.
  unfold net_seen. destruct (Z.ltb_spec 0 (select_res e)); [auto|discriminate].
Qed.

Lemma sock_ready_select e s : sock_ready e s = true -> 0 < select_res e.
Proof.
  unfold sock_ready. destruct (Z.ltb_spec 0 (select_res e)); [auto|discriminate].
Qed.

(** The slot after the network socket reported the end of the stream. *)
Lemma service_net_eof e s buf :
  net_seen e s = Some (PKT_TYPE_EOF, buf) ->
  let fds := active_fds s ∩ select_ready e in
  let s3 := service_net e fds (service_uart e fds (timers e s)) in
  connected s3 = 0 /\ net_fd s3 = -1 /\ client_addr s3 = 0 /\
  sock_fd s3 = sock_fd s /\
  active_fds s3 = active_fds s ∖ {[net_fd s]} /\
  client_socks s3 = client_socks s ∖ {[net_fd s]} /\
  net_buf s3 = buf /\
  pwk_on_time s3 = (if pwk_due e s then 0 else pwk_on_time s).
Proof.
  intros Hseen. pose proof (net_seen_select e s _ Hseen) as Hsel.
  rewrite net_seen_unfold in Hseen by assumption. simpl.
  destruct (before_service_net e s)
    as (Hu & Hk & Hn & Hc & Ha & Hf & Hb & Hs & Hp & Ht).
  simpl in *. unfold service_net at 1 2 3 4 5 6 7 8.
  rewrite Hc, Hn, Hu, Hb.
  destruct (negb (connected s =? 0) && _); [|discriminate].
  injection Hseen as ->.
  unfold on_eof, close, FD_CLR, emit. simpl.
  rewrite Hk, Hf, Hn, Hs, Hp. repeat split; reflexivity.
Qed.

(** When the client socket reports the end of the stream and no
    connection is pending, the pass ends with an empty slot: [connected]
    is 0, [net_fd] is -1, [client_addr] is 0, the old socket is closed and
    no longer watched, and the loop goes on. *)
Theorem eof_empties_slot (e : iter_env) (s : state) (buf : xfr_buf) :
  net_seen e s = Some (PKT_TYPE_EOF, buf) ->
  sock_ready e s = false ->
  exists s',
    loop_body e s = Next s'
    /\ connected s' = 0 /\ net_fd s' = -1 /\ client_addr s' = 0
    /\ active_fds s' = active_fds s ∖ {[net_fd s]}
    /\ client_socks s' = client_socks s ∖ {[net_fd s]}
    /\ net_buf s' = buf.
Proof.
  intros Hseen Hno. pose proof (net_seen_select e s _ Hseen) as Hsel.
  destruct (service_net_eof e s buf Hseen)
    as (Hc & Hn & Ha & Hk & Hf & Hs & Hb & _).
  rewrite loop_body_after_select by assumption. simpl in *.
  unfold sock_ready in Hno.
  assert ((0 <? select_res e) = true) as Hlt by lia.
  rewrite Hlt in Hno. simpl in Hno.
  unfold service_sock. rewrite Hk, Hno.
  eexists. split; [reflexivity|].
  unfold emit. simpl. repeat split; assumption.
Qed.

Lemma eof_empties_slot_witness :
  exists s',
    loop_body (eof_env 1200) s_client = Next s'
    /\ connected s' = 0 /\ net_fd s' = -1 /\ client_addr s' = 0
    /\ active_fds s' = active_fds s_client ∖ {[net_fd s_client]}
    /\ client_socks s' = client_socks s_client ∖ {[net_fd s_client]}
    /\ net_buf s' = net_buf s_client.
Proof.
  apply (eof_empties_slot (eof_env 1200) s_client (net_buf s_client));
    vm_compute; reflexivity.
Defined.

(** When the client socket reports the end of the stream and a
    connection is accepted in the same pass, the newcomer gets the slot
    whatever its address: the end of the stream is handled first. *)
Theorem eof_then_accept_same_pass (e : iter_env) (s : state) (buf : xfr_buf) :
  net_seen e s = Some (PKT_TYPE_EOF, buf) ->
  sock_ready e s = true ->
  accept_res e <> -1 ->
  exists s',
    loop_body e s = Next s'
    /\ connected s' = 1 /\ net_fd s' = accept_res e
    /\ client_addr s' = accept_addr e
    /\ active_fds s' = active_fds s ∖ {[net_fd s]} ∪ {[accept_res e]}
    /\ client_socks s' = client_socks s ∖ {[net_fd s]} ∪ {[accept_res e]}.
Proof.
  intros Hseen Hready Hok. pose proof (net_seen_select e s _ Hseen) as Hsel.
  destruct (service_net_eof e s buf Hseen)
    as (Hc & Hn & Ha & Hk & Hf & Hs & Hb & _).
  rewrite loop_body_after_select by assumption. simpl in *.
  unfold sock_ready in Hready.
  assert ((0 <? select_res e) = true) as Hlt by lia.
  rewrite Hlt in Hready. simpl in Hready.
  unfold service_sock. rewrite Hk, Hready.
  destruct (Z.eqb_spec (accept_res e) (-1)) as [|_]; [contradiction|].
  eexists. split; [reflexivity|].
  unfold on_accept, accepted, FD_SET, emit. simpl. rewrite Hc. simpl.
  rewrite Hf, Hs. repeat split; reflexivity.
Qed.

Lemma eof_then_accept_same_pass_witness :
  exists s',
    loop_body (eof_conn_env 1200 8 55) s_client = Next s'
    /\ connected s' = 1 /\ net_fd s' = 8 /\ client_addr s' = 55
    /\ active_fds s' = active_fds s_client ∖ {[net_fd s_client]} ∪ {[8]}
    /\ client_socks s' = client_socks s_client ∖ {[net_fd s_client]} ∪ {[8]}.
Proof.
  apply (eof_then_accept_same_pass (eof_conn_env 1200 8 55) s_client
           (net_buf s_client)); vm_compute; [reflexivity|reflexivity|discriminate].
Defined.

(** A connection accepted while the slot is empty gets the slot: the new
    socket is stored in [net_fd], watched and counted as open, the peer
    address is recorded and [connected] becomes 1. *)
Theorem accept_into_empty_slot (e : iter_env) (s : state) :
  connected s = 0 ->
  sock_ready e s = true ->
  accept_res e <> -1 ->
  exists s',
    loop_body e s = Next s'
    /\ connected s' = 1 /\ net_fd s' = accept_res e
    /\ client_addr s' = accept_addr e
    /\ active_fds s' = active_fds s ∪ {[accept_res e]}
    /\ client_socks s' = client_socks s ∪ {[accept_res e]}
    /\ net_buf s' = net_buf s.
Proof.
  intros Hc Hready Hok. pose proof (sock_ready_select e s Hready) as Hsel.
  destruct (before_service_net e s)
    as (Hu & Hk & Hn & Hc2 & Ha & Hf & Hb & Hs & Hp & Ht).
  rewrite loop_body_after_select by assumption. simpl in *.
  unfold sock_ready in Hready.
  assert ((0 <? select_res e) = true) as Hlt by lia.
  rewrite Hlt in Hready. simpl in Hready.
  unfold service_net. rewrite Hc2, Hc. simpl.
  unfold service_sock. rewrite Hk, Hready.
  destruct (Z.eqb_spec (accept_res e) (-1)) as [|_]; [contradiction|].
  eexists. split; [reflexivity|].
  unfold on_accept, accepted, FD_SET, emit. simpl. rewrite Hc2, Hc. simpl.
  rewrite Hf, Hs, Hb. repeat split; reflexivity.
Qed.

Lemma accept_into_empty_slot_witness :
  exists s',
    loop_body (conn_env 1000 7 99) s_entry = Next s'
    /\ connected s' = 1 /\ net_fd s' = 7 /\ client_addr s' = 99
    /\ active_fds s' = active_fds s_entry ∪ {[7]}
    /\ client_socks s' = client_socks s_entry ∪ {[7]}
    /\ net_buf s' = net_buf s_entry.
Proof.
  apply (accept_into_empty_slot (conn_env 1000 7 99) s_entry);
    vm_compute; [reflexivity|reflexivity|discriminate].
Defined.

(** ** A pass seen from the buffers and the pulse *)

Lemma net_buf_service_net e fds s :
  net_buf (service_net e fds s) =
    if negb (connected s =? 0) && FD_ISSET (net_fd s) fds
    then snd (transfer_data e (net_fd s) (uart_fd s) (net_buf s))
    else net_buf s.
Proof.
  unfold service_net. destruct (negb _ && _); [|reflexivity].
  destruct (transfer_data _ _ _ _) as [pkt buf].
  destruct pkt; try reflexivity.
  rewrite on_pwk_cases. simpl. destruct (_ =? rig_is_on _); reflexivity.
Qed.

Lemma pwk_on_time_service_net_cases e fds s :
  pwk_on_time (service_net e fds s) =
    if negb (connected s =? 0) && FD_ISSET (net_fd s) fds then
      match transfer_data e (net_fd s) (uart_fd s) (net_buf s) with
      | (PKT_TYPE_PWK, buf) =>
          if data_at buf 2 =? rig_is_on s then pwk_on_time s
          else current_time s
      | _ => pwk_on_time s
      end
    else pwk_on_time s.
Proof.
  unfold service_net. destruct (negb _ && _); [|reflexivity].
  destruct (transfer_data _ _ _ _) as [pkt buf].
  destruct pkt; try reflexivity.
  rewrite on_pwk_cases. simpl. destruct (_ =? rig_is_on _); reflexivity.
Qed.

(** Apart from adding the result of the keepalive that follows an INIT2 to
    [uart_buf.write_errors], a pass never alters a buffer itself: after
    the pass each buffer is as [transfer_data] left it, or as it was when
    its channel was not serviced. *)
Theorem buffers_pass_through (e : iter_env) (s : state) :
  uart_buf (state_of (loop_body e s)) =
    (match uart_seen e s with
     | Some PKT_TYPE_INIT2 =>
         add_write_errors (keepalive_init2_res e)
           (snd (transfer_data e (uart_fd s) (net_fd s) (uart_buf s)))
     | Some _ => snd (transfer_data e (uart_fd s) (net_fd s) (uart_buf s))
     | None => uart_buf s
     end)
  /\ net_buf (state_of (loop_body e s)) =
       match net_seen e s with
       | Some (_, buf) => buf
       | None => net_buf s
       end.
Proof.
  destruct (timers_frame e s) as (Hu & _ & Hn & _ & _ & _ & _ & Hb & Hnb & _).
  destruct (Z.ltb_spec 0 (select_res e)) as [Hsel | Hsel].
  - destruct (state_after_select e s Hsel) as (s4 & Hs4 & Hend).
    assert (uart_buf (state_of (loop_body e s)) = uart_buf s4
            /\ net_buf (state_of (loop_body e s)) = net_buf s4) as [-> ->]
      by (destruct Hend as [-> | ->]; split; reflexivity).
    subst s4.
    destruct (service_sock_frame e (active_fds s ∩ select_ready e)
                (service_net e (active_fds s ∩ select_ready e)
                   (service_uart e (active_fds s ∩ select_ready e) (timers e s))))
      as (_ & _ & _ & _ & _ & _ & -> & ->).
    destruct (service_net_frame e (active_fds s ∩ select_ready e)
                (service_uart e (active_fds s ∩ select_ready e) (timers e s)))
      as (_ & _ & _ & _ & _ & ->).
    split.
    + rewrite uart_buf_service_uart, Hu, Hn, Hb. unfold uart_seen.
      assert ((0 <? select_res e) = true) as -> by lia. simpl.
      destruct (FD_ISSET _ _); [|reflexivity]. simpl.
      destruct (fst _); reflexivity.
    + rewrite net_buf_service_net.
      destruct (before_service_net e s) as (-> & _ & -> & -> & _ & _ & -> & _).
      rewrite net_seen_unfold by assumption.
      destruct (negb _ && _); [|reflexivity].
      destruct (transfer_data _ _ _ _); reflexivity.
  - rewrite loop_body_no_select by assumption. simpl.
    unfold uart_seen, net_seen.
    assert ((0 <? select_res e) = false) as -> by lia. simpl.
    split; assumption.
Qed.

(** The recorded pulse time after a pass: the time sample when the
    network service sees a power message whose payload byte differs from
    [rig_is_on] as the UART service of the same pass left it; otherwise 0
    when the release was due at the top of the pass, and unchanged when
    not.  Packets on the UART channel and connections never start or end a
    pulse. *)
Theorem pwk_on_time_after_pass (e : iter_env) (s : state) :
  pwk_on_time (state_of (loop_body e s)) =
    match net_seen e s with
    | Some (PKT_TYPE_PWK, buf) =>
        if data_at buf 2 =? rig_is_on (state_of (loop_body e s))
        then (if pwk_due e s then 0 else pwk_on_time s)
        else u64 (time_ms e)
    | _ => if pwk_due e s then 0 else pwk_on_time s
    end.
Proof.
  destruct (Z.ltb_spec 0 (select_res e)) as [Hsel | Hsel].
  - destruct (state_after_select e s Hsel) as (s4 & Hs4 & Hend).
    assert (pwk_on_time (state_of (loop_body e s)) = pwk_on_time s4
            /\ rig_is_on (state_of (loop_body e s)) = rig_is_on s4) as [-> ->]
      by (destruct Hend as [-> | ->]; split; reflexivity).
    subst s4.
    destruct (service_sock_frame e (active_fds s ∩ select_ready e)
                (service_net e (active_fds s ∩ select_ready e)
                   (service_uart e (active_fds s ∩ select_ready e) (timers e s))))
      as (_ & _ & -> & _ & -> & _).
    rewrite rig_is_on_service_net, pwk_on_time_service_net_cases.
    destruct (before_service_net e s)
      as (-> & _ & -> & -> & _ & _ & -> & _ & -> & ->).
    rewrite net_seen_unfold by assumption.
    destruct (negb _ && _); [|reflexivity].
    destruct (transfer_data _ _ _ _) as [[] buf]; reflexivity.
  - rewrite loop_body_no_select by assumption. simpl.
    rewrite timers_pwk_on_time. unfold net_seen.
    assert ((0 <? select_res e) = false) as -> by lia. reflexivity.
Qed.

(** An INIT2 and a power-on request in the same pass: the rig counts as on
    by the time the request is looked at, so no pulse is started. *)
Lemma init2_and_power_on_same_pass :
  rig_is_on s_client = 0 /\
  pwk_on_time
    (state_of (loop_body
       (mkIter 1200 0 2 {[3; 7]}
          (fun from _ b =>
             if from =? 3 then (PKT_TYPE_INIT2, b)
             else (PKT_TYPE_PWK, mkBuf [254; 160; 1; 253] 0 0 1 0))
          0 (-1) 0) s_client)) = 0.
Proof. vm_compute. split; reflexivity. Qed.

(** ** The loop as a whole *)

Lemma run_cons e iters s :
  run (e :: iters) s = run iters (state_of (loop_body e s)).
Proof. reflexivity. Qed.

Lemma run_app pre post s : run (pre ++ post) s = run post (run pre s).
Proof. unfold run. apply fold_left_app. Qed.

(** While no [accept] fails the loop runs every pass it is given, and when
    [keep_running] is found cleared it ends with the success status after
    the line "Shutting down". *)
Theorem event_loop_clean_run (iters : list iter_env) (s : state) :
  accept_fails_during iters s = false ->
  event_loop iters s
  = (EXIT_SUCCESS, emit (Diag MsgShuttingDown) (run iters s)).
Proof.
  revert s. induction iters as [|e rest IH]; intros s Hacc; [reflexivity|].
  simpl in Hacc. apply orb_false_iff in Hacc as [He Hrest].
  pose proof (loop_body_cleanup_false e s He) as Hn.
  rewrite run_cons. cbn [event_loop].
  destruct (loop_body e s) as [s' | s']; [|discriminate].
  simpl in *. apply IH, Hrest.
Qed.

Lemma event_loop_clean_run_witness :
  event_loop [conn_env 1000 7 99; eof_env 1200] s_entry
  = (EXIT_SUCCESS,
     emit (Diag MsgShuttingDown) (run [conn_env 1000 7 99; eof_env 1200] s_entry)).
Proof.
  apply (event_loop_clean_run [conn_env 1000 7 99; eof_env 1200] s_entry).
  vm_compute. reflexivity.
Defined.

(** The first pass whose [accept] fails is the last one: the loop ends
    with the failure status in the state that pass left, and the passes
    that would have followed are never run. *)
Theorem event_loop_stops_at_failed_accept
    (pre post : list iter_env) (e : iter_env) (s : state) :
  accept_fails_during pre s = false ->
  accept_fails e (run pre s) = true ->
  event_loop (pre ++ e :: post) s
  = (EXIT_FAILURE, state_of (loop_body e (run pre s))).
Proof.
  revert s. induction pre as [|e0 pre IH]; intros s Hacc Hfail.
  - simpl in *. apply loop_body_cleanup_iff in Hfail as [s' Hs'].
    rewrite Hs'. reflexivity.
  - simpl in Hacc. apply orb_false_iff in Hacc as [He Hrest].
    pose proof (loop_body_cleanup_false e0 s He) as Hn.
    rewrite run_cons in Hfail. rewrite run_cons.
    rewrite <- app_comm_cons. cbn [event_loop].
    destruct (loop_body e0 s) as [s' | s']; [|discriminate].
    simpl in *. apply IH; assumption.
Qed.

Lemma event_loop_stops_at_failed_accept_witness :
  event_loop ([conn_env 1000 7 99] ++ accept_error_env 1100 :: [eof_env 1200])
    s_entry
  = (EXIT_FAILURE,
     state_of (loop_body (accept_error_env 1100) (run [conn_env 1000 7 99] s_entry))).
Proof.
  apply (event_loop_stops_at_failed_accept [conn_env 1000 7 99] [eof_env 1200]
           (accept_error_env 1100) s_entry); vm_compute; reflexivity.
Defined.

(** ** Options *)

(** Parsing two option lists in a row. *)
Lemma parse_options_app (a b : list cli_opt) (o : options) :
  parse_options (a ++ b) o =
    match parse_options a o with
    | Parsed o' => parse_options b o'
    | Exited code tr => Exited code tr
    end.
Proof.
  revert o. induction a as [|[p | u | |] rest IH]; intros o; simpl.
  - reflexivity.
  - apply IH.
  - apply IH.
  - reflexivity.
  - reflexivity.
Qed.

(** When an option makes [parse_options] exit, the process ends with that
    status right after the help text: no device is opened, nothing is
    closed or reported and the loop is not entered, whatever the
    environment would have answered. *)
Theorem option_exit_touches_nothing
    (se : setup_env) (iters : list iter_env) (code : Z) :
  first_exit_option (argv se) = Some code ->
  main se iters =
    (code,
     (if signal_sigint_ok se then [] else [Diag MsgWarnSigint])
     ++ (if signal_sigterm_ok se then [] else [Diag MsgWarnSigterm])
     ++ [Diag MsgHelp; Exit code]).
Proof.
  intros Hopt. unfold main, setup.
  pose proof (parse_options_exit (argv se) default_options) as Hp.
  destruct (parse_options _ _) as [o | c tr]; simpl in Hp.
  - congruence.
  - destruct Hp as [Hc ->]. rewrite Hopt in Hc. injection Hc as <-.
    unfold warn_unless, emit.
    destruct (signal_sigint_ok se), (signal_sigterm_ok se); reflexivity.
Qed.

Lemma option_exit_touches_nothing_witness :
  main (mkSetup true false [OptP 4000; OptH; OptUnknown] 3 0 0 4 0 0 0 [] [])
       [idle 1000]
  = (EXIT_SUCCESS, [Diag MsgWarnSigterm; Diag MsgHelp; Exit EXIT_SUCCESS]).
Proof.
  apply (option_exit_touches_nothing
           (mkSetup true false [OptP 4000; OptH; OptUnknown] 3 0 0 4 0 0 0 [] [])
           [idle 1000] EXIT_SUCCESS).
  vm_compute. reflexivity.
Defined.

(** ** Timers at the end of a pass *)

Lemma u64_sub_diag x : u64 (x - x) = 0.
Proof. rewrite Z.sub_diag. reflexivity. Qed.

Lemma timers_inv_timers e s : timers_inv (timers e s).
Proof.
  unfold timers_inv.
  destruct (timers_frame e s) as (_ & _ & _ & _ & -> & _ & _ & _ & _ & _ & ->).
  rewrite timers_last_keepalive, timers_pwk_on_time.
  unfold keepalive_due, pwk_due. split.
  - intros Hon. destruct (Z.eqb_spec (rig_is_on s) 0) as [|_]; [contradiction|].
    simpl.
    destruct (Z.ltb_spec 150 (u64 (u64 (time_ms e) - last_keepalive s)))
      as [Hl | Hl]; [rewrite u64_sub_diag; lia|exact Hl].
  - destruct (Z.eqb_spec (pwk_on_time s) 0) as [Hz | _]; simpl;
      [intros Hx; contradiction|].
    destruct (Z.ltb_spec 500 (u64 (u64 (time_ms e) - pwk_on_time s)))
      as [Hl | Hl]; [intros Hx; exfalso; apply Hx; reflexivity
                    |intros _; exact Hl].
Qed.

Lemma timers_inv_service_uart e fds s :
  timers_inv s -> timers_inv (service_uart e fds s).
Proof.
  unfold timers_inv. intros [Hk Hp].
  unfold_handlers. destruct (FD_ISSET _ _); [|auto].
  destruct (transfer_data _ _ _ _) as [[] buf]; simpl;
    (split; [|exact Hp]); try exact Hk.
  - intros _. rewrite u64_sub_diag. lia.
  - intros Hx. exfalso. apply Hx. reflexivity.
Qed.

Lemma timers_inv_service_net e fds s :
  timers_inv s -> timers_inv (service_net e fds s).
Proof.
  intros Hinv. unfold service_net.
  destruct (negb _ && _); [|exact Hinv].
  destruct (transfer_data _ _ _ _) as [pkt buf].
  destruct pkt; try exact Hinv.
  rewrite on_pwk_cases. unfold timers_inv in *. simpl.
  destruct Hinv as [Hk Hp].
  destruct (_ =? rig_is_on _); simpl; [auto|].
  split; [exact Hk|intros _; rewrite u64_sub_diag; lia].
Qed.

Lemma timers_inv_service_sock e fds s :
  timers_inv s -> timers_inv (state_of (service_sock e fds s)).
Proof.
  unfold timers_inv. intros Hinv.
  destruct (service_sock_frame e fds s) as (_ & _ & -> & -> & -> & -> & _).
  exact Hinv.
Qed.

(** However a pass was started, it ends with neither timer overdue: when
    it leaves the rig on, the keepalive timer is at most 150 ms behind the
    time sample of the pass, and when it leaves a pulse recorded, the
    recorded time is at most 500 ms behind that sample (both in
    [uint64_t] arithmetic). *)
Theorem timers_never_overdue (e : iter_env) (s : state) :
  current_time (state_of (loop_body e s)) = u64 (time_ms e)
  /\ (rig_is_on (state_of (loop_body e s)) <> 0 ->
      u64 (u64 (time_ms e) - last_keepalive (state_of (loop_body e s))) <= 150)
  /\ (pwk_on_time (state_of (loop_body e s)) <> 0 ->
      u64 (u64 (time_ms e) - pwk_on_time (state_of (loop_body e s))) <= 500).
Proof.
  assert (current_time (state_of (loop_body e s)) = u64 (time_ms e)
          /\ timers_inv (state_of (loop_body e s))) as [Hc Hinv].
  { pose proof (timers_inv_timers e s) as Ht.
    destruct (timers_frame e s) as (_ & _ & _ & _ & _ & _ & _ & _ & _ & _ & Hc).
    destruct (Z.ltb_spec 0 (select_res e)) as [Hsel | Hsel].
    - destruct (state_after_select e s Hsel) as (s4 & Hs4 & Hend).
      assert (current_time s4 = u64 (time_ms e) /\ timers_inv s4) as [H4 H5].
      { subst s4. split.
        - destruct (service_sock_frame e (active_fds s ∩ select_ready e)
            (service_net e (active_fds s ∩ select_ready e)
               (service_uart e (active_fds s ∩ select_ready e) (timers e s))))
            as (_ & _ & _ & _ & _ & -> & _).
          destruct (service_net_frame e (active_fds s ∩ select_ready e)
            (service_uart e (active_fds s ∩ select_ready e) (timers e s)))
            as (_ & _ & _ & _ & -> & _).
          rewrite current_time_service_uart. exact Hc.
        - apply timers_inv_service_sock, timers_inv_service_net,
            timers_inv_service_uart, Ht. }
      destruct Hend as [-> | ->]; split; assumption.
    - rewrite loop_body_no_select by assumption. split; assumption. }
  unfold timers_inv in Hinv. rewrite Hc in Hinv.
  split; [exact Hc|exact Hinv].
Qed.

(** ** Keepalives while the rig is off *)

Lemma rig_is_on_pass e s :
  rig_is_on (state_of (loop_body e s)) =
    match uart_seen e s with
    | Some PKT_TYPE_INIT2 => 1
    | Some PKT_TYPE_EOS => 0
    | _ => rig_is_on s
    end.
Proof.
  unfold uart_seen.
  destruct (timers_frame e s) as (Hu & _ & Hn & _ & Hr & _ & Ha & Hb & _).
  destruct (Z.ltb_spec 0 (select_res e)) as [Hsel | Hsel]; simpl.
  - destruct (state_after_select e s Hsel) as (s4 & Hs4 & Hend).
    assert (rig_is_on (state_of (loop_body e s)) = rig_is_on s4) as ->
      by (destruct Hend as [-> | ->]; reflexivity).
    subst s4. rewrite rig_is_on_service_sock, rig_is_on_service_net,
      rig_is_on_service_uart, Hu, Hn, Hb, Hr.
    destruct (FD_ISSET _ _); [|reflexivity].
    destruct (fst _); reflexivity.
  - rewrite loop_body_no_select by assumption. exact Hr.
Qed.

Lemma no_init2_seen e s : no_init2 e -> init2_seen e s = false.
Proof.
  intros Hno. unfold init2_seen, uart_seen.
  destruct (_ && _); [|reflexivity].
  pose proof (Hno (uart_fd s) (net_fd s) (uart_buf s)) as H.
  destruct (fst _); try reflexivity. contradiction.
Qed.

(** Started with the rig off, the loop writes no keepalive and leaves the
    rig off for as long as no INIT2 packet arrives, whatever else
    happens: time passing, clients connecting, power messages, other
    packets on the serial port. *)
Theorem no_keepalive_before_init2 (iters : list iter_env) (s : state) :
  rig_is_on s = 0 ->
  Forall no_init2 iters ->
  rig_is_on (run iters s) = 0
  /\ keepalives (trace (run iters s)) = keepalives (trace s).
Proof.
  revert s. induction iters as [|e rest IH]; intros s Hoff Hno.
  - split; [exact Hoff|reflexivity].
  - inversion Hno as [|? ? He Hrest]; subst.
    pose proof (no_init2_seen e s He) as Hseen.
    destruct (keepalive_pass e s) as [Hk _].
    assert (rig_is_on (state_of (loop_body e s)) = 0) as Hoff'.
    { rewrite rig_is_on_pass. unfold init2_seen in Hseen.
      destruct (uart_seen e s) as [[]|]; try assumption; try reflexivity.
      discriminate. }
    rewrite run_cons.
    destruct (IH (state_of (loop_body e s)) Hoff' Hrest) as [H1 H2].
    split; [exact H1|].
    rewrite H2, Hk, Hseen. unfold keepalive_due. rewrite Hoff. simpl. lia.
Qed.

Lemma no_keepalive_before_init2_witness :
  rig_is_on (run [conn_env 1000 7 99; pwk_env 1100 1; idle 1700] s_entry) = 0
  /\ keepalives (trace (run [conn_env 1000 7 99; pwk_env 1100 1; idle 1700] s_entry))
     = keepalives (trace s_entry).
Proof.
  apply (no_keepalive_before_init2
           [conn_env 1000 7 99; pwk_env 1100 1; idle 1700] s_entry).
  - vm_compute. reflexivity.
  - unfold no_init2. simpl.
    repeat (apply Forall_cons; split; [intros from to buf; discriminate|]).
    apply Forall_nil. exact I.
Defined.

(** ** Serial data without a client *)

Lemma service_net_trace e fds s :
  exists tr, trace (service_net e fds s) = trace s ++ tr.
Proof.
  unfold service_net. destruct (negb _ && _); [|exists []; symmetry; apply app_nil_r].
  destruct (transfer_data _ _ _ _) as [pkt buf].
  destruct pkt; try (eexists; reflexivity).
  - rewrite on_pwk_cases. unfold emit. simpl.
    destruct (_ =? rig_is_on _); simpl; rewrite <- app_assoc;
      eexists; reflexivity.
  - unfold on_eof, close, FD_CLR, emit. simpl. rewrite <- !app_assoc.
    eexists. reflexivity.
Qed.

Lemma service_sock_trace e fds s :
  exists tr, trace (state_of (service_sock e fds s)) = trace s ++ tr.
Proof.
  unfold service_sock, on_accept, accepted, close, FD_SET, FD_CLR, emit.
  destruct (FD_ISSET _ _); [|exists []; symmetry; apply app_nil_r].
  destruct (accept_res e =? -1); simpl; [eexists; reflexivity|].
  destruct (connected s =? 0); simpl;
    [rewrite <- !app_assoc; eexists; reflexivity|].
  destruct (client_addr s =? accept_addr e); simpl;
    rewrite <- !app_assoc; eexists; reflexivity.
Qed.

Lemma service_uart_trace e fds s :
  FD_ISSET (uart_fd s) fds = true ->
  exists tr,
    trace (service_uart e fds s)
    = trace s ++ TransferData (uart_fd s) (net_fd s) :: tr.
Proof.
  intros Hset. unfold service_uart, send_keepalive, emit. rewrite Hset.
  destruct (transfer_data _ _ _ _) as [[] buf]; simpl;
    rewrite <- ?app_assoc; eexists; reflexivity.
Qed.

(** While no client is connected the serial port is still serviced: in a
    reachable state with [connected] 0, a pass that finds the port
    readable calls [transfer_data] from the serial port to the descriptor
    -1 that [net_fd] holds then. *)
Theorem uart_serviced_without_client (e : iter_env) (s : state) (p : pkt_type) :
  reachable s ->
  connected s = 0 ->
  uart_seen e s = Some p ->
  exists before after,
    trace (state_of (loop_body e s))
    = trace s ++ before ++ TransferData (uart_fd s) (-1) :: after.
Proof.
  intros Hr Hc Hseen.
  destruct (reachable_flag_inv s Hr) as (_ & _ & Hempty).
  destruct (Hempty Hc) as [Hfd _].
  unfold uart_seen in Hseen.
  destruct (Z.ltb_spec 0 (select_res e)) as [Hsel | Hsel]; [|discriminate].
  simpl in Hseen.
  destruct (FD_ISSET (uart_fd s) (active_fds s ∩ select_ready e)) eqn:Hset;
    [|discriminate].
  destruct (timers_frame e s) as (Hu & _ & Hn & _).
  destruct (state_after_select e s Hsel) as (s4 & Hs4 & Hend).
  set (fds := active_fds s ∩ select_ready e) in *.
  destruct (service_sock_trace e fds
              (service_net e fds (service_uart e fds (timers e s)))) as [t3 H3].
  destruct (service_net_trace e fds (service_uart e fds (timers e s)))
    as [t2 H2].
  destruct (service_uart_trace e fds (timers e s)) as [t1 H1];
    [rewrite Hu; exact Hset|].
  rewrite Hu, Hn, Hfd in H1.
  assert (exists t4, trace (state_of (loop_body e s)) = trace s4 ++ t4)
    as [t4 H4].
  { destruct Hend as [-> | ->]; [exists []; symmetry; apply app_nil_r|].
    unfold emit. simpl. eexists. reflexivity. }
  rewrite H4, <- Hs4, H3, H2, H1, timers_trace.
  exists ((if keepalive_due e s then [SendKeepalive (uart_fd s)] else [])
          ++ (if pwk_due e s then [GpioSetValue GPIO_PWK 0] else [])),
         (t1 ++ t2 ++ t3 ++ t4).
  rewrite <- !app_assoc. simpl. rewrite <- ?app_assoc. reflexivity.
Qed.

Lemma uart_serviced_without_client_witness :
  exists before after,
    trace (state_of (loop_body (uart_env 1010 PKT_TYPE_LCD 0) s_entry))
    = trace s_entry ++ before ++ TransferData (uart_fd s_entry) (-1) :: after.
Proof.
  apply (uart_serviced_without_client (uart_env 1010 PKT_TYPE_LCD 0) s_entry
           PKT_TYPE_LCD).
  - apply (reachable_entry good_setup). vm_compute. reflexivity.
  - vm_compute. reflexivity.
  - vm_compute. reflexivity.
Defined.

Lemma timers_never_overdue_witness :
  u64 (u64 (time_ms (idle 1300))
       - last_keepalive (state_of (loop_body (idle 1300) s_rig_on))) <= 150
  /\ u64 (u64 (time_ms (idle 1300))
          - pwk_on_time (state_of (loop_body (idle 1300) s_pulse))) <= 500.
Proof.
  split.
  - apply (proj1 (proj2 (timers_never_overdue (idle 1300) s_rig_on))).
    vm_compute. discriminate.
  - apply (proj2 (proj2 (timers_never_overdue (idle 1300) s_pulse))).
    vm_compute. discriminate.
Defined.

(** * The keepalive policy *)

Lemma keepalives_to_app fd tr1 tr2 :
  keepalives_to fd (tr1 ++ tr2)
  = (keepalives_to fd tr1 + keepalives_to fd tr2)%nat.
Proof.
  induction tr1 as [|ev tr1 IH]; simpl; [reflexivity|].
  destruct ev; simpl; rewrite IH; lia.
Qed.

Lemma keepalives_to_self fd : keepalives_to fd [SendKeepalive fd] = 1%nat.
Proof. simpl. rewrite Z.eqb_refl. reflexivity. Qed.

Lemma keepalives_to_timers e s :
  keepalives_to (uart_fd s) (trace (timers e s)) =
    (keepalives_to (uart_fd s) (trace s) + b2n (keepalive_due e s))%nat.
Proof.
  rewrite timers_trace, !keepalives_to_app.
  destruct (keepalive_due e s), (pwk_due e s);
    rewrite ?keepalives_to_self; simpl; lia.
Qed.

Lemma keepalives_to_service_uart e fds s :
  keepalives_to (uart_fd s) (trace (service_uart e fds s)) =
    (keepalives_to (uart_fd s) (trace s)
     + b2n (FD_ISSET (uart_fd s) fds
            && match fst (transfer_data e (uart_fd s) (net_fd s) (uart_buf s)) with
               | PKT_TYPE_INIT2 => true
               | _ => false
               end))%nat.
Proof.
  unfold_handlers. destruct (FD_ISSET _ _); simpl; [|lia].
  destruct (transfer_data _ _ _ _) as [[] buf]; simpl;
    rewrite ?keepalives_to_app, ?keepalives_to_self; simpl; lia.
Qed.

Lemma keepalives_to_service_net fd e fds s :
  keepalives_to fd (trace (service_net e fds s)) = keepalives_to fd (trace s).
Proof.
  unfold_handlers. split_cases; rewrite ?keepalives_to_app; simpl; lia.
Qed.

Lemma keepalives_to_service_sock fd e fds s :
  keepalives_to fd (trace (state_of (service_sock e fds s)))
  = keepalives_to fd (trace s).
Proof.
  unfold_handlers. split_cases; rewrite ?keepalives_to_app; simpl; lia.
Qed.

(** The keepalives a pass writes to the serial port. *)
Lemma keepalives_to_uart_pass e s :
  keepalives_to (uart_fd s) (trace (state_of (loop_body e s))) =
    (keepalives_to (uart_fd s) (trace s)
     + b2n (keepalive_due e s) + b2n (init2_seen e s))%nat.
Proof.
  destruct (timers_frame e s) as (Hu & _ & Hn & _ & _ & _ & _ & Hb & _).
  destruct (Z.ltb_spec 0 (select_res e)) as [Hsel | Hsel].
  - destruct (state_after_select e s Hsel) as (s4 & Hs4 & Hend).
    assert (keepalives_to (uart_fd s) (trace (state_of (loop_body e s)))
            = keepalives_to (uart_fd s) (trace s4)) as ->.
    { destruct Hend as [-> | ->]; [reflexivity|].
      unfold emit; simpl. rewrite keepalives_to_app; simpl. lia. }
    subst s4.
    rewrite keepalives_to_service_sock, keepalives_to_service_net.
    rewrite <- Hu at 1. rewrite keepalives_to_service_uart.
    rewrite Hu, Hn, Hb, keepalives_to_timers, (init2_seen_unfold e s Hsel).
    reflexivity.
  - rewrite loop_body_no_select by assumption. simpl.
    rewrite keepalives_to_timers, (init2_seen_no_select e s Hsel). simpl. lia.
Qed.

Lemma pass_frame e s :
  uart_fd (state_of (loop_body e s)) = uart_fd s
  /\ sock_fd (state_of (loop_body e s)) = sock_fd s
  /\ current_time (state_of (loop_body e s)) = u64 (time_ms e).
Proof.
  destruct (timers_frame e s)
    as (Hu & Hk & _ & _ & _ & _ & _ & _ & _ & _ & Hc).
  destruct (Z.ltb_spec 0 (select_res e)) as [Hsel | Hsel].
  - destruct (state_after_select e s Hsel) as (s4 & Hs4 & Hend).
    assert (uart_fd s4 = uart_fd s /\ sock_fd s4 = sock_fd s
            /\ current_time s4 = u64 (time_ms e)) as H4.
    { subst s4.
      destruct (service_sock_frame e (active_fds s ∩ select_ready e)
        (service_net e (active_fds s ∩ select_ready e)
           (service_uart e (active_fds s ∩ select_ready e) (timers e s))))
        as (-> & -> & _ & _ & _ & -> & _).
      destruct (service_net_frame e (active_fds s ∩ select_ready e)
        (service_uart e (active_fds s ∩ select_ready e) (timers e s)))
        as (-> & -> & _ & _ & -> & _).
      destruct (service_uart_frame e (active_fds s ∩ select_ready e) (timers e s))
        as (-> & -> & _ & _ & _ & _ & _ & _ & _ & ->).
      auto. }
    destruct Hend as [-> | ->]; exact H4.
  - rewrite loop_body_no_select by assumption. auto.
Qed.

(** With samples at most [gap] apart, a rig that is on gets its next
    keepalive no later than 150 ms + [gap] after the keepalive timer. *)
Lemma keepalive_within_bound gap iters s :
  rig_is_on s <> 0 ->
  0 <= last_keepalive s ->
  last_keepalive s <= current_time s <= last_keepalive s + 150 ->
  paced gap (current_time s) iters = true ->
  accept_fails_during iters s = false ->
  eos_seen_during iters s = false ->
  existsb (fun e => last_keepalive s + 150 <? time_ms e) iters = true ->
  exists pre e post,
    iters = pre ++ e :: post
    /\ keepalives_to (uart_fd s) (trace (run pre s))
       = keepalives_to (uart_fd s) (trace s)
    /\ time_ms e <= last_keepalive s + 150 + gap
    /\ (keepalives_to (uart_fd s) (trace (run pre s))
        < keepalives_to (uart_fd s) (trace (state_of (loop_body e (run pre s)))))%nat
    /\ last_keepalive (state_of (loop_body e (run pre s))) = time_ms e.
Proof.
  revert s. induction iters as [|e rest IH];
    intros s Hon Hpos Hcur Hpaced Hacc Heos Hlate; [discriminate|].
  simpl in Hpaced, Hacc, Heos, Hlate.
  apply andb_true_iff in Hpaced as [Hpaced Hrest].
  apply andb_true_iff in Hpaced as [Hpaced Hfit].
  apply andb_true_iff in Hpaced as [Hlo Hhi].
  apply orb_false_iff in Hacc as [_ Hacc].
  apply orb_false_iff in Heos as [Heos1 Heos].
  assert (u64 (time_ms e) = time_ms e) as Hu by (apply u64_small; lia).
  destruct (keepalive_pass e s) as [_ Hl].
  pose proof (keepalives_to_uart_pass e s) as Hk.
  destruct (pass_frame e s) as (Hfd & _ & Hc). rewrite Hu in Hc.
  destruct (keepalive_due e s || init2_seen e s) eqn:Hsent.
  - exists [], e, rest. simpl. rewrite Hl, Hu.
    repeat split; [lia|].
    rewrite Hk. apply orb_true_iff in Hsent as [-> | ->]; simpl; lia.
  - apply orb_false_iff in Hsent as [Hdue Hinit].
    rewrite Hdue, Hinit in Hk. simpl in Hk.
    assert (rig_is_on (state_of (loop_body e s)) = rig_is_on s) as Hr.
    { rewrite rig_is_on_pass. unfold init2_seen in Hinit.
      unfold eos_seen in Heos1.
      destruct (uart_seen e s) as [[]|]; try reflexivity; discriminate. }
    assert (time_ms e <= last_keepalive s + 150) as Hnot.
    { unfold keepalive_due in Hdue. rewrite Hu in Hdue.
      rewrite u64_small in Hdue by lia.
      destruct (Z.eqb_spec (rig_is_on s) 0) as [|_]; [contradiction|].
      simpl in Hdue. lia. }
    assert ((last_keepalive s + 150 <? time_ms e) = false) as Hthis by lia.
    rewrite Hthis in Hlate. simpl in Hlate.
    destruct (IH (state_of (loop_body e s)))
      as (pre & e' & post & Hi & Hq & Ht & Hw & Hn).
    + rewrite Hr. exact Hon.
    + rewrite Hl. exact Hpos.
    + rewrite Hl, Hc. lia.
    + rewrite Hc. exact Hrest.
    + exact Hacc.
    + exact Heos.
    + rewrite Hl. exact Hlate.
    + rewrite Hl, Hfd in *.
      exists (e :: pre), e', post. rewrite !run_cons, Hi.
      repeat split; try assumption. lia.
Qed.

(** C3, as the code has it.  Every pass started with the rig on and a time
    sample more than 150 ms past the keepalive timer writes one keepalive
    to the serial port, and a pass whose UART service sees an INIT2 writes
    one more; no keepalive goes to any other descriptor; the timer is set
    to the time sample in exactly these cases, whatever [send_keepalive]
    returned; a pass that starts with the rig off and sees no INIT2 writes
    no keepalive.  So, with time samples at most [gap] apart and the rig
    staying on, the next keepalive is written to the serial port no later
    than 150 ms + [gap] after the timer was last set. *)
Theorem keepalive_policy (gap : Z) (iters : list iter_env) (e : iter_env)
    (s : state) :
  (keepalives_to (uart_fd s) (trace (state_of (loop_body e s))) =
     (keepalives_to (uart_fd s) (trace s)
      + b2n (keepalive_due e s) + b2n (init2_seen e s))%nat
   /\ keepalives (trace (state_of (loop_body e s))) =
        (keepalives (trace s)
         + b2n (keepalive_due e s) + b2n (init2_seen e s))%nat
   /\ last_keepalive (state_of (loop_body e s)) =
        if keepalive_due e s || init2_seen e s then u64 (time_ms e)
        else last_keepalive s)
  /\ (forall r, last_keepalive (state_of (loop_body (with_keepalive_timer_res r e) s))
                = last_keepalive (state_of (loop_body e s)))
  /\ (rig_is_on s = 0 -> init2_seen e s = false ->
      keepalives (trace (state_of (loop_body e s))) = keepalives (trace s))
  /\ (rig_is_on s <> 0 ->
      0 <= last_keepalive s ->
      last_keepalive s <= current_time s <= last_keepalive s + 150 ->
      paced gap (current_time s) iters = true ->
      accept_fails_during iters s = false ->
      eos_seen_during iters s = false ->
      existsb (fun e => last_keepalive s + 150 <? time_ms e) iters = true ->
      exists pre e1 post,
        iters = pre ++ e1 :: post
        /\ keepalives_to (uart_fd s) (trace (run pre s))
           = keepalives_to (uart_fd s) (trace s)
        /\ time_ms e1 <= last_keepalive s + 150 + gap
        /\ (keepalives_to (uart_fd s) (trace (run pre s))
            < keepalives_to (uart_fd s)
                (trace (state_of (loop_body e1 (run pre s)))))%nat
        /\ last_keepalive (state_of (loop_body e1 (run pre s))) = time_ms e1).
Proof.
  pose proof (keepalive_pass e s) as [Hk Hl].
  split; [|split; [|split]].
  - split; [apply keepalives_to_uart_pass|]. split; assumption.
  - intros r. rewrite Hl.
    destruct (keepalive_pass (with_keepalive_timer_res r e) s) as [_ ->].
    reflexivity.
  - intros Hoff Hno. rewrite Hk, Hno.
    unfold keepalive_due. rewrite Hoff. simpl. lia.
  - apply keepalive_within_bound.
Qed.

Lemma keepalive_policy_witness :
  keepalives (trace (state_of (loop_body (idle 1200) s_client))) =
    keepalives (trace s_client)
  /\ exists pre e1 post,
       rig_on_passes = pre ++ e1 :: post
       /\ keepalives_to (uart_fd s_rig_on) (trace (run pre s_rig_on))
          = keepalives_to (uart_fd s_rig_on) (trace s_rig_on)
       /\ time_ms e1 <= last_keepalive s_rig_on + 150 + 50
       /\ (keepalives_to (uart_fd s_rig_on) (trace (run pre s_rig_on))
           < keepalives_to (uart_fd s_rig_on)
               (trace (state_of (loop_body e1 (run pre s_rig_on)))))%nat
       /\ last_keepalive (state_of (loop_body e1 (run pre s_rig_on))) = time_ms e1.
Proof.
  split.
  - apply (proj1 (proj2 (proj2 (keepalive_policy 50 [] (idle 1200) s_client))));
      vm_compute; reflexivity.
  - apply (proj2 (proj2 (proj2 (keepalive_policy 50 rig_on_passes (idle 1200)
                                  s_rig_on)))).
    + vm_compute. discriminate.
    + vm_compute. discriminate.
    + vm_compute. split; discriminate.
    + vm_compute. reflexivity.
    + vm_compute. reflexivity.
    + vm_compute. reflexivity.
    + vm_compute. reflexivity.
Defined.

(** The timer moves although the periodic keepalive failed (returned 1),
    and 150 ms after a keepalive none has been written yet: the keepalive
    of time 1010 is followed by the next one only at the first sample
    past 1160. *)
Lemma keepalive_timer_moves_on_failure :
  rig_is_on s_rig_on = 1 /\ last_keepalive s_rig_on = 1010 /\
  keepalive_timer_res (idle_keepalive 1200 1) = 1 /\
  last_keepalive (state_of (loop_body (idle_keepalive 1200 1) s_rig_on)) = 1200 /\
  trace (state_of (loop_body (idle_keepalive 1200 1) s_rig_on)) =
    trace s_rig_on ++ [SendKeepalive 3] /\
  trace (state_of (loop_body (idle 1160) s_rig_on)) = trace s_rig_on /\
  last_keepalive (state_of (loop_body (idle 1160) s_rig_on)) = 1010.
Proof. vm_compute. repeat split; reflexivity. Qed.

(** * Release of the power-button pulse *)

(** The recorded pulse time after a pass. *)
Lemma pwk_on_time_pass e s :
  pwk_on_time (state_of (loop_body e s)) =
    if pwk_requested e s then u64 (time_ms e)
    else if pwk_due e s then 0 else pwk_on_time s.
Proof.
  unfold pwk_requested.
  destruct (Z.ltb_spec 0 (select_res e)) as [Hsel | Hsel].
  - destruct (state_after_select e s Hsel) as (s4 & Hs4 & Hend).
    assert (pwk_on_time (state_of (loop_body e s)) = pwk_on_time s4
            /\ rig_is_on (state_of (loop_body e s)) = rig_is_on s4) as [-> ->]
      by (destruct Hend as [-> | ->]; split; reflexivity).
    subst s4.
    destruct (service_sock_frame e (active_fds s ∩ select_ready e)
                (service_net e (active_fds s ∩ select_ready e)
                   (service_uart e (active_fds s ∩ select_ready e) (timers e s))))
      as (_ & _ & -> & _ & -> & _).
    rewrite rig_is_on_service_net, pwk_on_time_service_net_cases.
    destruct (before_service_net e s)
      as (Hu & _ & Hn & Hc & _ & _ & Hb & _ & Hp & Ht).
    simpl in Hu, Hn, Hc, Hb, Hp, Ht.
    rewrite Hu, Hn, Hc, Hb, Hp, Ht.
    rewrite net_seen_unfold by assumption.
    destruct (negb _ && _); [|reflexivity].
    destruct (transfer_data _ _ _ _) as [[] buf]; try reflexivity.
    destruct (data_at buf 2 =? _); reflexivity.
  - rewrite loop_body_no_select by assumption. simpl.
    rewrite timers_pwk_on_time. unfold net_seen.
    assert ((0 <? select_res e) = false) as -> by lia. reflexivity.
Qed.

(** C8, as the code has it: the timer step at the top of a pass releases a
    pending pulse as soon as the time sample is more than 500 ms past the
    recorded time, whatever else the pass holds; and when the samples of
    the passes are at most [gap] apart, no pass is left through a failing
    accept and no pass records a pulse anew (no power message that differs
    from the rig state arrives), a pulse recorded at [t0] is released by a
    pass whose sample is at most [t0 + 500 + gap].  Power messages that
    agree with the rig state, and any other packet, change nothing in
    this. *)
Theorem pwk_release (gap : Z) (iters : list iter_env) (s : state) :
  (forall e s1, pwk_due e s1 = true ->
     pwk_on_time (timers e s1) = 0 /\ pwk_level (trace (timers e s1)) = 0)
  /\ (0 < pwk_on_time s ->
      pwk_on_time s <= current_time s <= pwk_on_time s + 500 ->
      paced gap (current_time s) iters = true ->
      pwk_requested_during iters s = false ->
      accept_fails_during iters s = false ->
      existsb (fun e => pwk_on_time s + 500 <? time_ms e) iters = true ->
      exists pre e post,
        iters = pre ++ e :: post
        /\ pwk_on_time (run pre s) = pwk_on_time s
        /\ pwk_on_time s + 500 < time_ms e <= pwk_on_time s + 500 + gap
        /\ pwk_on_time (timers e (run pre s)) = 0
        /\ pwk_level (trace (timers e (run pre s))) = 0).
Proof.
  split; [intros e s1; apply pwk_timer_release|].
  revert s. induction iters as [|e rest IH];
    intros s Hpend Hcur Hpaced Hno Hacc Hlate; [discriminate|].
  simpl in Hpaced, Hno, Hacc, Hlate.
  apply andb_true_iff in Hpaced as [Hpaced Hrest].
  apply andb_true_iff in Hpaced as [Hpaced Hfit].
  apply andb_true_iff in Hpaced as [Hlo Hhi].
  apply orb_false_iff in Hacc as [_ Hacc].
  apply orb_false_iff in Hno as [Hno1 Hno2].
  assert (u64 (time_ms e) = time_ms e) as Hu by (apply u64_small; lia).
  destruct (Z.ltb_spec (pwk_on_time s + 500) (time_ms e)) as [Hdue | Hnot].
  - exists [], e, rest. simpl.
    assert (pwk_due e s = true) as Hd.
    { unfold pwk_due. rewrite Hu, u64_small by lia.
      apply andb_true_iff. split; [apply negb_true_iff; lia|lia]. }
    destruct (pwk_timer_release e s Hd) as [H1 H2].
    repeat split; [lia|lia|exact H1|exact H2].
  - simpl in Hlate.
    pose proof (pwk_on_time_pass e s) as Hp.
    destruct (pass_frame e s) as (_ & _ & Hc).
    assert (pwk_due e s = false) as Hd.
    { unfold pwk_due. rewrite Hu, u64_small by lia.
      apply andb_false_iff. right. lia. }
    rewrite Hno1, Hd in Hp. rewrite Hu in Hc.
    destruct (IH (state_of (loop_body e s)))
      as (pre & e' & post & Hi & Hq & Ht & Hz & Hl).
    + rewrite Hp. exact Hpend.
    + rewrite Hp, Hc. lia.
    + rewrite Hc. exact Hrest.
    + exact Hno2.
    + exact Hacc.
    + rewrite Hp. exact Hlate.
    + exists (e :: pre), e', post. rewrite !run_cons. rewrite Hp in *.
      rewrite Hi. repeat split; try assumption; lia.
Qed.

Lemma pwk_release_witness :
  exists pre e post,
    agreeing_passes = pre ++ e :: post
    /\ pwk_on_time (run pre s_pulse) = pwk_on_time s_pulse
    /\ pwk_on_time s_pulse + 500 < time_ms e <= pwk_on_time s_pulse + 500 + 50
    /\ pwk_on_time (timers e (run pre s_pulse)) = 0
    /\ pwk_level (trace (timers e (run pre s_pulse))) = 0.
Proof.
  apply (proj2 (pwk_release 50 agreeing_passes s_pulse)).
  - vm_compute. reflexivity.
  - vm_compute. split; discriminate.
  - vm_compute. reflexivity.
  - vm_compute. reflexivity.
  - vm_compute. reflexivity.
  - vm_compute. reflexivity.
Defined.

(** A second power-on request at time 1400 keeps the line asserted past
    1100 + 500 + 50: at the sample 1700 the pulse recorded at 1100 is
    still pending, now with the recorded time 1400.  And when an accept
    fails while the pulse is pending, the process exits with the line
    still asserted. *)
Lemma pwk_release_postponed :
  reachable s_pulse /\
  pwk_on_time s_pulse = 1100 /\ current_time s_pulse = 1100 /\
  paced 50 (current_time s_pulse) retrigger_passes = true /\
  accept_fails_during retrigger_passes s_pulse = false /\
  current_time (run retrigger_passes s_pulse) = 1700 /\
  pwk_on_time (run retrigger_passes s_pulse) = 1400 /\
  pwk_level (trace (run retrigger_passes s_pulse)) = 1 /\
  trace (run retrigger_passes s_pulse) =
    trace s_pulse ++ [TransferData 7 3; Diag (MsgPower true);
                      GpioSetValue GPIO_PWK 1; Usleep] /\
  fst (main good_setup
         [conn_env 1000 7 99; pwk_env 1100 1; accept_error_env 1150]) =
    EXIT_FAILURE /\
  pwk_level (snd (main good_setup
                    [conn_env 1000 7 99; pwk_env 1100 1;
                     accept_error_env 1150])) = 1.
Proof.
  split; [exact s_pulse_reachable|]. vm_compute. repeat split; reflexivity.
Qed.

(** Without a second request, and also with a power-off request that
    agrees with the rig being off, the same pulse is released at the
    sample 1650. *)
Lemma pwk_release_example :
  pwk_on_time (run quiet_passes s_pulse) = 0 /\
  pwk_level (trace (run quiet_passes s_pulse)) = 0 /\
  trace (run quiet_passes s_pulse) = trace s_pulse ++ [GpioSetValue GPIO_PWK 0] /\
  pwk_on_time (run agreeing_passes s_pulse) = 0 /\
  trace (run agreeing_passes s_pulse) =
    trace s_pulse ++ [TransferData 7 3; Diag (MsgPower false); Usleep;
                      GpioSetValue GPIO_PWK 0].
Proof. vm_compute. repeat split; reflexivity. Qed.

(** * The client slot and the open client sockets *)

Lemma size_accepted new s :
  client_inv s -> (size (client_socks (accepted new s)) <= 2)%nat.
Proof.
  intros Hinv. apply client_inv_size in Hinv.
  unfold accepted. simpl. rewrite size_union_alt.
  assert (size ({[new]} ∖ client_socks s) <= 1)%nat as H1.
  { rewrite <- (size_singleton (C := gset Z) new).
    apply subseteq_size. set_unfold. intros x. tauto. }
  lia.
Qed.

Lemma on_eof_slot s :
  client_inv s ->
  slot (on_eof s) = ∅ /\ client_socks (on_eof s) = ∅
  /\ connected (on_eof s) = 0
  /\ trace (on_eof s)
     = trace s ++ [Diag (MsgConnClosed (net_fd s)); Close (net_fd s)].
Proof.
  unfold client_inv, slot, on_eof, close, FD_CLR, emit. simpl. intros Hinv.
  repeat split.
  - apply leibniz_equiv. destruct (connected s =? 0);
      set_unfold; intros x; specialize (Hinv x); tauto.
  - rewrite <- app_assoc. reflexivity.
Qed.

Lemma on_accept_slot new addr s :
  client_inv s ->
  (connected s = 0 ->
   slot (on_accept new addr (accepted new s)) = {[new]}
   /\ client_socks (on_accept new addr (accepted new s)) = {[new]})
  /\ (connected s <> 0 -> client_addr s = addr ->
      slot (on_accept new addr (accepted new s)) = {[new]}
      /\ client_socks (on_accept new addr (accepted new s))
         = (client_socks s ∪ {[new]}) ∖ {[net_fd s]}
      /\ trace (on_accept new addr (accepted new s))
         = trace s ++ [Diag (MsgNewConn addr);
                       Diag (MsgReconnect (net_fd s) new); Close (net_fd s)])
  /\ (connected s <> 0 -> client_addr s <> addr ->
      slot (on_accept new addr (accepted new s)) = slot s
      /\ client_socks (on_accept new addr (accepted new s))
         = client_socks s ∖ {[new]}
      /\ trace (on_accept new addr (accepted new s))
         = trace s ++ [Diag (MsgNewConn addr); Diag MsgConnRefused; Close new]).
Proof.
  unfold client_inv, slot, on_accept, accepted, close, FD_SET, FD_CLR, emit.
  simpl. intros Hinv.
  destruct (Z.eqb_spec (connected s) 0) as [Hc | Hc]; simpl.
  - split; [|split; intros; contradiction].
    intros _. split; [reflexivity|].
    apply leibniz_equiv. set_unfold. intros x. specialize (Hinv x). tauto.
  - split; [intros; contradiction|].
    destruct (Z.eqb_spec (client_addr s) addr) as [Ha | Ha]; simpl.
    + split; [|intros; contradiction]. intros _ _.
      destruct (Z.eqb_spec (connected s) 0) as [|_]; [contradiction|].
      repeat split. rewrite <- !app_assoc. reflexivity.
    + split; [intros; contradiction|]. intros _ _.
      destruct (Z.eqb_spec (connected s) 0) as [|_]; [contradiction|].
      repeat split.
      * apply leibniz_equiv. set_unfold. intros x. tauto.
      * rewrite <- !app_assoc. reflexivity.
Qed.

(** The states in which a pass services the network socket and the
    listening socket. *)
Lemma client_inv_inside_pass e s :
  client_inv s ->
  client_inv (service_uart e (active_fds s ∩ select_ready e) (timers e s))
  /\ client_inv (service_net e (active_fds s ∩ select_ready e)
                  (service_uart e (active_fds s ∩ select_ready e) (timers e s))).
Proof.
  intros Hinv.
  assert (client_inv (service_uart e (active_fds s ∩ select_ready e) (timers e s)))
    as H2.
  { destruct (service_uart_slot e (active_fds s ∩ select_ready e) (timers e s))
      as (Hs & Hc & Hn).
    destruct (timers_frame e s) as (_ & _ & Hn' & Hc' & _ & _ & _ & _ & _ & Hs' & _).
    unfold client_inv, slot in *. rewrite Hs, Hc, Hn, Hs', Hc', Hn'. exact Hinv. }
  split; [exact H2|apply client_inv_service_net, H2].
Qed.

(** C9, as the code has it.  At every loop test, and where a pass ends, the
    open client sockets are contained in the slot, which is empty when
    [connected] is 0 and holds [net_fd] otherwise, so at most one client
    socket is open; the same holds where a pass services the network
    socket and the listening socket.  From such a state the end-of-stream
    handler closes the slot's socket and leaves the slot and the open
    client sockets empty; the accept handler fills an empty slot with the
    new socket, or closes the old socket and puts the new one in the slot
    when the address is the recorded one, or closes the new socket and
    leaves the slot as it is.  Between [accept] and that [close] the new
    socket is open next to the slot's: at most two client sockets. *)
Theorem one_client_socket (s : state) :
  reachable s ->
  (client_socks s ⊆ slot s /\ (size (client_socks s) <= 1)%nat)
  /\ (forall e,
        client_socks (state_of (loop_body e s)) ⊆ slot (state_of (loop_body e s))
        /\ (size (client_socks (state_of (loop_body e s))) <= 1)%nat)
  /\ (forall e,
        let fds := active_fds s ∩ select_ready e in
        let s2 := service_uart e fds (timers e s) in
        let s3 := service_net e fds s2 in
        client_socks s2 ⊆ slot s2 /\ client_socks s3 ⊆ slot s3)
  /\ (forall s1, client_socks s1 ⊆ slot s1 ->
        slot (on_eof s1) = ∅ /\ client_socks (on_eof s1) = ∅
        /\ connected (on_eof s1) = 0
        /\ trace (on_eof s1)
           = trace s1 ++ [Diag (MsgConnClosed (net_fd s1)); Close (net_fd s1)])
  /\ (forall s1 new addr, client_socks s1 ⊆ slot s1 ->
        (size (client_socks (accepted new s1)) <= 2)%nat
        /\ (connected s1 = 0 ->
            slot (on_accept new addr (accepted new s1)) = {[new]}
            /\ client_socks (on_accept new addr (accepted new s1)) = {[new]})
        /\ (connected s1 <> 0 -> client_addr s1 = addr ->
            slot (on_accept new addr (accepted new s1)) = {[new]}
            /\ client_socks (on_accept new addr (accepted new s1))
               = (client_socks s1 ∪ {[new]}) ∖ {[net_fd s1]}
            /\ trace (on_accept new addr (accepted new s1))
               = trace s1 ++ [Diag (MsgNewConn addr);
                              Diag (MsgReconnect (net_fd s1) new);
                              Close (net_fd s1)])
        /\ (connected s1 <> 0 -> client_addr s1 <> addr ->
            slot (on_accept new addr (accepted new s1)) = slot s1
            /\ client_socks (on_accept new addr (accepted new s1))
               = client_socks s1 ∖ {[new]}
            /\ trace (on_accept new addr (accepted new s1))
               = trace s1 ++ [Diag (MsgNewConn addr); Diag MsgConnRefused;
                              Close new])).
Proof.
  intros Hr. pose proof (reachable_client_inv s Hr) as H.
  split; [split; [exact H|apply client_inv_size, H]|].
  split.
  { intros e. pose proof (client_inv_loop_body e s H) as H'.
    split; [exact H'|apply client_inv_size, H']. }
  split; [intros e; exact (client_inv_inside_pass e s H)|].
  split; [intros s1 H1; exact (on_eof_slot s1 H1)|].
  intros s1 new addr H1.
  split; [exact (size_accepted new s1 H1)|exact (on_accept_slot new addr s1 H1)].
Qed.

Lemma one_client_socket_witness :
  (size (client_socks s_client) <= 1)%nat
  /\ (size (client_socks (state_of (loop_body (conn_env 1200 8 55) s_client))) <= 1)%nat
  /\ client_socks (on_eof s_client) = ∅
  /\ client_socks (on_accept 8 99 (accepted 8 s_client))
     = (client_socks s_client ∪ {[8]}) ∖ {[net_fd s_client]}
  /\ client_socks (on_accept 8 55 (accepted 8 s_client))
     = client_socks s_client ∖ {[8]}
  /\ client_socks (on_accept 7 99 (accepted 7 s_entry)) = {[7]}.
Proof.
  pose proof (one_client_socket s_client
                (reachable_pass (conn_env 1000 7 99) s_entry s_client
                   (reachable_entry good_setup s_entry eq_refl) eq_refl))
    as (H1 & H2 & _ & H4 & H5).
  pose proof (one_client_socket s_entry
                (reachable_entry good_setup s_entry eq_refl))
    as (H1' & _ & _ & _ & H5').
  split; [exact (proj2 H1)|].
  split; [exact (proj2 (H2 (conn_env 1200 8 55)))|].
  split; [exact (proj1 (proj2 (H4 s_client (proj1 H1))))|].
  split; [|split].
  - refine (proj1 (proj2 (proj1 (proj2 (proj2 (H5 s_client 8 99 (proj1 H1)))) _ _)));
      vm_compute; [discriminate|reflexivity].
  - refine (proj1 (proj2 (proj2 (proj2 (proj2 (H5 s_client 8 55 (proj1 H1)))) _ _)));
      vm_compute; discriminate.
  - refine (proj2 (proj1 (proj2 (H5' s_entry 7 99 (proj1 H1'))) _)).
    vm_compute. reflexivity.
Defined.

(** Inside the accept handler two client sockets are open: while client 7
    holds the slot, a connection from another address is accepted on
    socket 8 and closed again in the same pass. *)
Lemma two_sockets_inside_accept :
  reachable s_client /\
  loop_body (conn_env 1200 8 55) s_client =
    Next (emit Usleep
            (on_accept 8 55 (accepted 8 (timers (conn_env 1200 8 55) s_client)))) /\
  client_socks (accepted 8 (timers (conn_env 1200 8 55) s_client)) = {[7; 8]} /\
  size (client_socks (accepted 8 (timers (conn_env 1200 8 55) s_client))) = 2%nat /\
  client_socks (state_of (loop_body (conn_env 1200 8 55) s_client)) = {[7]}.
Proof.
  split; [exact s_client_reachable|]. vm_compute. repeat split; reflexivity.
Qed.

(** * A failing setsockopt *)

(** When [setsockopt] fails, setup ends the way it ends when the call
    succeeds, with the same exit status and the same variables; the
    output differs by the one line "Error setting SO_REUSEADDR", printed
    where the call is made, provided setup gets that far: when the loop
    is entered the line is the last of the output so far, and when bind
    or listen fails it comes just before their error line. *)
Theorem setsockopt_failure_only_warns (se : setup_env) :
  setsockopt_res se <> -1 ->
  match setup se, setup (setsockopt_fails se) with
  | SetupExit c tr, SetupExit c' tr' => c' = c /\ tr' = tr
  | SetupCleanup s, SetupCleanup s' =>
      vars s' = vars s
      /\ exists pre last,
           trace s = pre ++ [last]
           /\ trace s' =
                pre ++ (if reaches_setsockopt se
                        then [Diag MsgErrReuseAddr] else []) ++ [last]
  | SetupDone s, SetupDone s' => s' = emit (Diag MsgErrReuseAddr) s
  | _, _ => False
  end.
Proof.
  intros Hok. unfold setsockopt_fails, reaches_setsockopt, setup, with_warnings.
  cbn [signal_sigint_ok signal_sigterm_ok argv open_res set_serial_config_res
       gpio_init_out_res socket_res setsockopt_res bind_res listen_res].
  destruct (parse_options (argv se) default_options) as [o | code tr];
    [|split; reflexivity].
  change (initial_state
            (mkSetup (signal_sigint_ok se) (signal_sigterm_ok se) (argv se)
               (open_res se) (set_serial_config_res se)
               (gpio_init_out_res se) (socket_res se) (-1) (bind_res se)
               (listen_res se) (uart_data0 se) (net_data0 se)))
    with (initial_state se).
  generalize (warn_unless (signal_sigterm_ok se) MsgWarnSigterm
                (warn_unless (signal_sigint_ok se) MsgWarnSigint
                   (initial_state se))).
  intros s2. cbv zeta.
  generalize (emit (Diag (MsgUsingUart (default "/dev/ttyO1"%string (uart o))))
                (emit (Diag (MsgUsingPort (port o))) s2)).
  intros s3. cbn [uart_fd sock_fd set_uart_fd set_sock_fd].
  destruct (open_res se =? -1); [split; reflexivity|].
  generalize (set_uart_fd (open_res se) s3). intros s4.
  destruct (set_serial_config_res se =? -1); simpl.
  { split; [reflexivity|]. exists (trace s4), (Diag MsgErrUartConfig).
    split; reflexivity. }
  destruct (gpio_init_out_res se =? -1); simpl.
  { split; [reflexivity|]. exists (trace s4), (Diag MsgErrGpio).
    split; reflexivity. }
  destruct (socket_res se =? -1); simpl.
  { split; [reflexivity|].
    exists (trace (set_sock_fd (socket_res se) s4)), (Diag MsgErrSocket).
    split; reflexivity. }
  generalize (set_sock_fd (socket_res se) s4). intros s5.
  destruct (Z.eqb_spec (setsockopt_res se) (-1)) as [|_]; [contradiction|].
  unfold warn_unless. simpl.
  destruct (bind_res se =? -1).
  { split; [reflexivity|]. exists (trace s5), (Diag MsgErrBind).
    split; [reflexivity|]. unfold emit. simpl. rewrite <- app_assoc. reflexivity. }
  destruct (listen_res se =? -1).
  { split; [reflexivity|]. exists (trace s5), (Diag MsgErrListen).
    split; [reflexivity|]. unfold emit. simpl. rewrite <- app_assoc. reflexivity. }
  reflexivity.
Qed.

Lemma setsockopt_failure_only_warns_witness :
  setup (setsockopt_fails good_setup) =
    SetupDone (emit (Diag MsgErrReuseAddr) s_entry).
Proof.
  pose proof (setsockopt_failure_only_warns good_setup) as H.
  change (setup good_setup) with (SetupDone s_entry) in H.
  destruct (setup (setsockopt_fails good_setup)) as [c tr | s | s];
    try (exfalso; apply H; vm_compute; discriminate).
  f_equal. apply H. vm_compute. discriminate.
Defined.

(** * The last option wins *)

Lemma last_cons {A} (x d : A) (l : list A) :
  List.last (x :: l) d = List.last l x.
Proof.
  revert x d. induction l as [|y l IH]; intros x d; [reflexivity|].
  change (List.last (x :: y :: l) d) with (List.last (y :: l) d).
  rewrite (IH y d), (IH y x). reflexivity.
Qed.

Lemma parse_options_settings argv o :
  first_exit_option argv = None ->
  parse_options argv o =
    Parsed (mkOptions (List.last (port_args argv) (port o))
                      (List.last (map Some (uart_args argv)) (uart o))).
Proof.
  revert o. induction argv as [|[p | u | |] rest IH]; intros o Hno.
  - destruct o; reflexivity.
  - change (parse_options (OptP p :: rest) o)
      with (parse_options rest (mkOptions p (uart o))).
    change (port_args (OptP p :: rest)) with (p :: port_args rest).
    change (uart_args (OptP p :: rest)) with (uart_args rest).
    rewrite (IH _ Hno), last_cons. reflexivity.
  - change (parse_options (OptU u :: rest) o)
      with (parse_options rest (mkOptions (port o) (Some u))).
    change (port_args (OptU u :: rest)) with (port_args rest).
    change (uart_args (OptU u :: rest)) with (u :: uart_args rest).
    change (map Some (u :: uart_args rest))
      with (Some u :: map Some (uart_args rest)).
    rewrite (IH _ Hno), last_cons. reflexivity.
  - discriminate.
  - discriminate.
Qed.

(** What [parse_options] leaves in [port] and [uart]: the argument of the
    last [-p] and of the last [-u], or the value from before when there is
    none, as long as no [-h] and no unknown option is among the options;
    and the first [-h] or unknown option ends the process with the help
    text, with success for [-h] and failure otherwise, whatever options
    come after it. *)
Theorem parse_options_last_wins (a b : list cli_opt) (o : options) :
  first_exit_option a = None ->
  parse_options a o =
    Parsed (mkOptions (List.last (port_args a) (port o))
                      (List.last (map Some (uart_args a)) (uart o)))
  /\ parse_options (a ++ OptH :: b) o = Exited EXIT_SUCCESS [Diag MsgHelp]
  /\ parse_options (a ++ OptUnknown :: b) o = Exited EXIT_FAILURE [Diag MsgHelp].
Proof.
  intros Hno. pose proof (parse_options_settings a o Hno) as Ha.
  split; [exact Ha|].
  split; rewrite parse_options_app, Ha; reflexivity.
Qed.

Lemma parse_options_last_wins_witness :
  parse_options [OptP 4000; OptU "/dev/ttyS0"; OptP 5000] default_options =
    Parsed (mkOptions 5000 (Some "/dev/ttyS0"%string))
  /\ parse_options ([OptP 4000; OptU "/dev/ttyS0"; OptP 5000]
                    ++ OptH :: [OptUnknown; OptP 1]) default_options
     = Exited EXIT_SUCCESS [Diag MsgHelp]
  /\ parse_options ([OptP 4000; OptU "/dev/ttyS0"; OptP 5000]
                    ++ OptUnknown :: [OptUnknown; OptP 1]) default_options
     = Exited EXIT_FAILURE [Diag MsgHelp].
Proof.
  apply (parse_options_last_wins [OptP 4000; OptU "/dev/ttyS0"%string; OptP 5000]).
  vm_compute. reflexivity.
Defined.
